(** * A breakout trading bot: shallow embedding of [test2.py]

    The script polls an exchange for one trading pair, derives a high/low
    band from the last seven one-minute candles, waits for the price to
    leave the band, enters a simulated position and manages it with a
    trailing stop.  Finished trades are appended to a JSON log; every 30
    days the log is summarised, archived and emptied.

    Modelling choices.
    - Prices and amounts are Python floats in the script.  They are modelled
      as exact rationals ([Q]); decimal literals such as [1.005] and [0.01]
      are the rationals they denote and [round(x, 4)] is rounding to the
      nearest multiple of 1/10000, ties to even.  Binary rounding error and
      NaN are outside the model.  Where the exact product lies on a rounding
      tie, the double the script computes may lie on either side of it, and
      the fourth decimal it records can then differ by one from the model's:
      what is stated about recorded values is stated as bounds that hold on
      either side.
    - [trade_log.json] is either unreadable or a JSON array in the layout the
      script itself writes, so that [log_trade], which rewrites the file in
      place from its start without truncating it, covers the old text.
      Writing to a file that could be opened does not fail.
    - The outside world (exchange responses, files, wall clock, Telegram)
      is an explicit [World] threaded through a state-and-exception monad.
      Everything the script does to the outside is appended to [trace].
    - [while True] loops take a bound on their number of iterations; a run
      that needs more iterations, or more exchange responses than the world
      holds, ends in [Stuck] (the script is still running). *)

From Stdlib Require Import ZArith QArith Qabs String List Bool Lia.
Import ListNotations.

Local Open Scope Q_scope.

(** ** Numbers *)

(** Python's [a < b] on numbers. *)
Definition Qltb (x y : Q) : bool := negb (Qle_bool y x).

Infix "<?" := Qltb (at level 70, no associativity) : Q_scope.

(** Builtin [max(a, b)]: [b] replaces [a] only when [b > a]. *)
Definition py_max (a b : Q) : Q := if a <? b then b else a.

(** Builtin [min(a, b)]: [b] replaces [a] only when [b < a]. *)
Definition py_min (a b : Q) : Q := if b <? a then b else a.

(** [max(iterable)] and [min(iterable)] on a non-empty iterable: the first
    item is the running extremum and each later item is compared to it. *)
Definition py_max_of (first : Q) (rest : list Q) : Q := fold_left py_max rest first.
Definition py_min_of (first : Q) (rest : list Q) : Q := fold_left py_min rest first.

(** [sum(iterable)]: left to right, starting from [0]. *)
Definition py_sum (xs : list Q) : Q := fold_left Qplus xs 0.

(** Nearest integer, ties to the even neighbour. *)
Definition round_half_even (q : Q) : Z :=
  let n := Qnum q in
  let d := Z.pos (Qden q) in
  let f := (n / d)%Z in
  match (2 * (n mod d) ?= d)%Z with
  | Lt => f
  | Gt => (f + 1)%Z
  | Eq => if Z.even f then f else (f + 1)%Z
  end.

(** [round(x, ndigits)]. *)
Definition py_round (x : Q) (ndigits : nat) : Q :=
  let scale := Z.to_pos (10 ^ Z.of_nat ndigits) in
  round_half_even (x * (Z.pos scale # 1)) # scale.

(** ** Constants (lines 21-27) *)

Definition TRADE_AMOUNT : Q := 1 # 100.
Definition COOLDOWN_PERIOD : Z := (15 * 60)%Z.

(** Seconds in [timedelta(days=30)]. *)
Definition THIRTY_DAYS : Z := (30 * 86400)%Z.

(** ** Data *)

(** One OHLCV row as the exchange client returns it:
    [[timestamp, open, high, low, close, volume]]; [c[2]] is the high and
    [c[3]] the low. *)
Record Candle := mkCandle {
  c_timestamp : Z;
  c_open : Q;
  c_high : Q;
  c_low : Q;
  c_close : Q;
  c_volume : Q
}.

(** The strings ['LONG'] and ['SHORT']. *)
Inductive side := LONG | SHORT.

Definition side_eqb (a b : side) : bool :=
  match a, b with
  | LONG, LONG | SHORT, SHORT => true
  | _, _ => false
  end.

(** The dictionary [trade_data] of [log_trade]. *)
Record TradeRecord := mkTrade {
  entry_price : Q;
  exit_price : Q;
  trade_type : side;
  profit_loss : Q;
  time : Z;
  reason : string
}.

(** The dictionary [summary_data] of [generate_summary]; dates are kept as
    clock readings instead of formatted strings. *)
Record SummaryRecord := mkSummary {
  start_date : Z;
  end_date : Z;
  total_profit_loss : Q;
  trade_count : nat;
  trades : list TradeRecord
}.

(** ** Range detector (lines 58-64) *)

Definition get_high_low (candles : list Candle) : option Q * option Q :=
  match candles with
  | [] => (None, None)
  | c :: cs =>
      let high := py_max_of (c_high c) (map c_high cs) in
      let low := py_min_of (c_low c) (map c_low cs) in
      (Some high, Some low)
  end.

(** ** The outside world *)

(** Python exceptions, split the way [except Exception] splits them:
    instances of [Exception] (network errors, [OSError], [JSONDecodeError])
    and the others ([KeyboardInterrupt], [SystemExit]), with the text
    [str(e)] gives. *)
Inductive exn :=
| Exception (text : string)
| BaseException (text : string).

Inductive entry_kind := Retracement | Chase.

(** The Telegram texts, one constructor per f-string of the script with the
    values it interpolates. *)
Inductive message :=
| MsgStarting
| MsgMonitoring (high low : Q)
| MsgSignal (s : side) (level : Q)
| MsgEntry (k : entry_kind) (s : side) (price : Q)
| MsgStopHit (s : side) (price : Q)
| MsgReport (total : Q)
| MsgCrashed (text : string).

(** What the script does to the outside, in order. *)
Inductive event :=
| EvSleep (seconds : Z)
| EvFetchOhlcv
| EvFetchTicker
| EvTelegram (m : message).

(** [trade_log.json]: a JSON array of trades, or a file that cannot be
    opened or parsed (the error text is what the exception carries). *)
Inductive log_file :=
| Unreadable (error : string)
| Holds (logged : list TradeRecord).

Record World := mkWorld {
  ohlcv_feed : list (exn + list Candle);  (* outcomes of the coming fetch_ohlcv calls *)
  ticker_feed : list (exn + Q);           (* outcomes of the coming fetch_ticker(...)['last'] *)
  clock : Z;                              (* datetime.now(), in seconds *)
  start_time : Z;                         (* the module-level start_time *)
  trade_log : log_file;                   (* TRADE_LOG_FILE *)
  summary_file : list SummaryRecord;      (* SUMMARY_FILE, one entry per appended object *)
  trace : list event
}.

Definition emit (e : event) (w : World) : World :=
  mkWorld (ohlcv_feed w) (ticker_feed w) (clock w) (start_time w)
          (trade_log w) (summary_file w) (trace w ++ [e]).

(** The world after [seconds] of sleep. *)
Definition elapse (seconds : Z) (w : World) : World :=
  mkWorld (ohlcv_feed w) (ticker_feed w) (clock w + seconds)%Z (start_time w)
          (trade_log w) (summary_file w) (trace w ++ [EvSleep seconds]).

(** ** The monad: state, exceptions, and runs that are not over *)

Inductive result (A : Type) :=
| Ret (a : A) (w : World)
| Raise (e : exn) (w : World)
| Stuck (w : World).

Arguments Ret {A} a w.
Arguments Raise {A} e w.
Arguments Stuck {A} w.

Definition M (A : Type) := World -> result A.

Definition ret {A} (a : A) : M A := fun w => Ret a w.

Definition bind {A B} (m : M A) (k : A -> M B) : M B :=
  fun w =>
    match m w with
    | Ret a w' => k a w'
    | Raise e w' => Raise e w'
    | Stuck w' => Stuck w'
    end.

Declare Scope monad_scope.
Delimit Scope monad_scope with monad.
Notation "x <- m ;; k" := (bind m (fun x => k))
  (at level 61, m at next level, right associativity) : monad_scope.
Notation "m ;; k" := (bind m (fun _ => k))
  (at level 61, right associativity) : monad_scope.
Local Open Scope monad_scope.

Definition stuck {A} : M A := fun w => Stuck w.

(** [try: body / except Exception as e: handler(str(e))]. *)
Definition try_except {A} (body : M A) (handler : string -> M A) : M A :=
  fun w =>
    match body w with
    | Raise (Exception text) w' => handler text w'
    | r => r
    end.

(** The final world of a run, whatever its outcome. *)
Definition world_of {A} (r : result A) : World :=
  match r with
  | Ret _ w | Raise _ w | Stuck w => w
  end.

(** ** Primitive effects *)

(** [time.sleep(seconds)]. *)
Definition sleep (seconds : Z) : M unit := fun w => Ret tt (elapse seconds w).

(** [datetime.now()]. *)
Definition now : M Z := fun w => Ret (clock w) w.

(** [kraken.fetch_ohlcv(TRADING_PAIRS, timeframe='1m', limit=7)]. *)
Definition fetch_ohlcv : M (list Candle) :=
  fun w =>
    match ohlcv_feed w with
    | [] => Stuck w
    | r :: rest =>
        let w' := mkWorld rest (ticker_feed w) (clock w) (start_time w)
                          (trade_log w) (summary_file w)
                          (trace w ++ [EvFetchOhlcv]) in
        match r with
        | inl e => Raise e w'
        | inr candles => Ret candles w'
        end
    end.

(** [kraken.fetch_ticker(TRADING_PAIRS)['last']]. *)
Definition fetch_ticker_last : M Q :=
  fun w =>
    match ticker_feed w with
    | [] => Stuck w
    | r :: rest =>
        let w' := mkWorld (ohlcv_feed w) rest (clock w) (start_time w)
                          (trade_log w) (summary_file w)
                          (trace w ++ [EvFetchTicker]) in
        match r with
        | inl e => Raise e w'
        | inr price => Ret price w'
        end
    end.

(** [send_telegram_message] (lines 37-46).  A failed delivery raises
    [RequestException], which the function swallows: either way it returns
    [None], so only the attempt is recorded. *)
Definition send_telegram_message (m : message) : M unit :=
  fun w => Ret tt (emit (EvTelegram m) w).

(** [json.load] of [TRADE_LOG_FILE]. *)
Definition load_trade_log : M (list TradeRecord) :=
  fun w =>
    match trade_log w with
    | Unreadable error => Raise (Exception error) w
    | Holds logged => Ret logged w
    end.

(** [json.dump(trades, file)] into [TRADE_LOG_FILE]: the file then holds
    [logged].  In [log_trade] the text is written over the old one after
    [seek(0)]; it is longer than the old text for a file the script wrote. *)
Definition dump_trade_log (logged : list TradeRecord) : M unit :=
  fun w =>
    Ret tt (mkWorld (ohlcv_feed w) (ticker_feed w) (clock w) (start_time w)
                    (Holds logged) (summary_file w) (trace w)).

(** [json.dump(summary_data, file)] with [SUMMARY_FILE] opened for append;
    the write is taken to succeed. *)
Definition append_summary (s : SummaryRecord) : M unit :=
  fun w =>
    Ret tt (mkWorld (ohlcv_feed w) (ticker_feed w) (clock w) (start_time w)
                    (trade_log w) (summary_file w ++ [s]) (trace w)).

(** [start_time = ...] on the global. *)
Definition set_start_time (t : Z) : M unit :=
  fun w =>
    Ret tt (mkWorld (ohlcv_feed w) (ticker_feed w) (clock w) t
                    (trade_log w) (summary_file w) (trace w)).

Definition get_start_time : M Z := fun w => Ret (start_time w) w.

(** ** Market data gateway (lines 48-56 and 66-74) *)

(** [for _ in range(attempts)]: return on the first answer, sleep 5 after a
    failed attempt; [[]] when the attempts are used up. *)
Fixpoint fetch_candles_from (attempts : nat) : M (list Candle) :=
  match attempts with
  | O => ret []
  | S n =>
      r <- try_except (c <- fetch_ohlcv ;; ret (Some c)) (fun _ => ret None) ;;
      match r with
      | Some c => ret c
      | None => sleep 5 ;; fetch_candles_from n
      end
  end.

Definition fetch_candles : M (list Candle) := fetch_candles_from 3.

Fixpoint get_current_price_from (attempts : nat) : M (option Q) :=
  match attempts with
  | O => ret None
  | S n =>
      r <- try_except (p <- fetch_ticker_last ;; ret (Some p)) (fun _ => ret None) ;;
      match r with
      | Some p => ret (Some p)
      | None => sleep 5 ;; get_current_price_from n
      end
  end.

Definition get_current_price : M (option Q) := get_current_price_from 3.

(** ** Trade log (lines 76-95) *)

Definition log_trade (entry_price exit_price : Q) (trade_type : side)
    (reason : string) : M unit :=
  trade_time <- now ;;
  let profit_loss :=
    if side_eqb trade_type LONG
    then py_round ((exit_price - entry_price) * TRADE_AMOUNT) 4
    else py_round ((entry_price - exit_price) * TRADE_AMOUNT) 4 in
  let trade_data :=
    mkTrade entry_price exit_price trade_type profit_loss trade_time reason in
  logged <- load_trade_log ;;
  dump_trade_log (logged ++ [trade_data]).

(** ** Position monitor (lines 97-123) *)

(** Lines 106-109 and 116-119: the two tightening steps of one iteration. *)
Definition tighten (trade_type : side) (entry_price stop_loss current_price : Q) : Q :=
  match trade_type with
  | LONG =>
      let stop_loss :=
        if entry_price * 1.01 <? current_price
        then py_max stop_loss (entry_price * 1.005) else stop_loss in
      if entry_price * 1.02 <? current_price
      then py_max stop_loss (entry_price * 1.01) else stop_loss
  | SHORT =>
      let stop_loss :=
        if current_price <? entry_price * 0.99
        then py_min stop_loss (entry_price * 0.995) else stop_loss in
      if current_price <? entry_price * 0.98
      then py_min stop_loss (entry_price * 0.99) else stop_loss
  end.

(** Lines 110 and 120: the exit test, on the tightened stop. *)
Definition stop_hit (trade_type : side) (current_price stop_loss : Q) : bool :=
  match trade_type with
  | LONG => current_price <? stop_loss
  | SHORT => stop_loss <? current_price
  end.

Fixpoint trailing_stop_loss (fuel : nat) (entry_price stop_loss : Q)
    (trade_type : side) : M unit :=
  match fuel with
  | O => stuck
  | S fuel' =>
      sleep 10 ;;
      p <- get_current_price ;;
      match p with
      | None => trailing_stop_loss fuel' entry_price stop_loss trade_type
      | Some current_price =>
          let stop_loss := tighten trade_type entry_price stop_loss current_price in
          if stop_hit trade_type current_price stop_loss
          then
            log_trade entry_price current_price trade_type "Trailing Stop Loss Hit" ;;
            send_telegram_message (MsgStopHit trade_type current_price)
          else trailing_stop_loss fuel' entry_price stop_loss trade_type
      end
  end.

(** ** Signal engine (lines 125-172) *)

(** Lines 144-150. *)
Definition update_signal (high low : Q) (entry_signal : option side)
    (current_price : Q) : M (option side) :=
  match entry_signal with
  | None =>
      if high <? current_price then
        send_telegram_message (MsgSignal LONG high) ;; ret (Some LONG)
      else if current_price <? low then
        send_telegram_message (MsgSignal SHORT low) ;; ret (Some SHORT)
      else ret None
  | Some _ => ret entry_signal
  end.

(** Lines 152-172: which of the four entry branches is taken, with the
    [trade_type] and the [stop_loss] that branch hands to
    [trailing_stop_loss]. *)
Definition entry_branch (high low : Q) (entry_signal : option side)
    (current_price : Q) : option (entry_kind * side * Q) :=
  match entry_signal with
  | None => None
  | Some s =>
      if side_eqb s LONG && ((low <? current_price) && (current_price <? high))
      then Some (Retracement, LONG, low)
      else if side_eqb s LONG && (high <? current_price)
      then Some (Chase, LONG, low)
      else if side_eqb s SHORT && ((low <? current_price) && (current_price <? high))
      then Some (Retracement, SHORT, high)
      else if side_eqb s SHORT && (current_price <? low)
      then Some (Chase, SHORT, high)
      else None
  end.

(** How an iteration of the monitoring loop ends. *)
Inductive loop_exit :=
| Continue (entry_signal : option side)
| Break.

(** Lines 143-172: the loop body once a price is known. *)
Definition on_price (fuel : nat) (high low : Q) (entry_signal : option side)
    (current_price : Q) : M loop_exit :=
  entry_signal <- update_signal high low entry_signal current_price ;;
  match entry_branch high low entry_signal current_price with
  | Some (kind, trade_type, stop_loss) =>
      send_telegram_message (MsgEntry kind trade_type current_price) ;;
      trailing_stop_loss fuel current_price stop_loss trade_type ;;
      ret Break
  | None => ret (Continue entry_signal)
  end.

(** Lines 138-172: one iteration of the monitoring loop. *)
Definition monitor_iteration (fuel : nat) (high low : Q)
    (entry_signal : option side) : M loop_exit :=
  sleep 10 ;;
  p <- get_current_price ;;
  match p with
  | None => ret (Continue entry_signal)
  | Some current_price => on_price fuel high low entry_signal current_price
  end.

Fixpoint monitor_loop (fuel : nat) (high low : Q) (entry_signal : option side)
    : M unit :=
  match fuel with
  | O => stuck
  | S fuel' =>
      r <- monitor_iteration fuel' high low entry_signal ;;
      match r with
      | Continue entry_signal => monitor_loop fuel' high low entry_signal
      | Break => ret tt
      end
  end.

Definition monitor_market (fuel : nat) : M unit :=
  candles <- fetch_candles ;;
  match get_high_low candles with
  | (Some high, Some low) =>
      send_telegram_message (MsgMonitoring high low) ;;
      monitor_loop fuel high low None
  | _ => ret tt
  end.

(** ** Monthly summary (lines 174-198) *)

Definition generate_summary : M unit :=
  logged <- load_trade_log ;;
  let total_profit_loss := py_sum (map profit_loss logged) in
  t <- now ;;
  let summary_data :=
    mkSummary (t - THIRTY_DAYS)%Z t total_profit_loss (List.length logged) logged in
  append_summary summary_data ;;
  dump_trade_log [] ;;
  send_telegram_message (MsgReport total_profit_loss).

(** ** Scheduler loop (lines 200-214) *)

(** Lines 206-208: the monthly rollover. *)
Definition rollover : M unit :=
  t <- now ;;
  started <- get_start_time ;;
  if (started + THIRTY_DAYS <=? t)%Z
  then generate_summary ;; t' <- now ;; set_start_time t'
  else ret tt.

(** The [try] block. *)
Definition main_body (fuel : nat) : M unit :=
  rollover ;;
  monitor_market fuel ;;
  sleep COOLDOWN_PERIOD.

(** One pass of [while True]: the [try] block and its handler. *)
Definition main_iteration (fuel : nat) : M unit :=
  try_except (main_body fuel)
    (fun text => send_telegram_message (MsgCrashed text) ;; sleep 10).

Fixpoint main_loop (iterations fuel : nat) : M unit :=
  match iterations with
  | O => stuck
  | S n => main_iteration fuel ;; main_loop n fuel
  end.

Definition main (iterations fuel : nat) : M unit :=
  send_telegram_message MsgStarting ;;
  main_loop iterations fuel.

(** ** Vocabulary of the statements *)

(** The sum of a list of numbers, as a recursive sum. *)
Definition Qsum (xs : list Q) : Q := fold_right Qplus 0 xs.

(** Price difference in the direction of the trade. *)
Definition signed_move (trade_type : side) (entry_price exit_price : Q) : Q :=
  match trade_type with
  | LONG => exit_price - entry_price
  | SHORT => entry_price - exit_price
  end.

(** The band edge on the losing side of a position. *)
Definition opposite_edge (trade_type : side) (high low : Q) : Q :=
  match trade_type with
  | LONG => low
  | SHORT => high
  end.

(** Events that open a position, close it, or report a crash. *)
Definition is_entry (e : event) : bool :=
  match e with EvTelegram (MsgEntry _ _ _) => true | _ => false end.

Definition is_exit (e : event) : bool :=
  match e with EvTelegram (MsgStopHit _ _) => true | _ => false end.

Definition is_crash (e : event) : bool :=
  match e with EvTelegram (MsgCrashed _) => true | _ => false end.

Definition quiet (e : event) : bool :=
  negb (is_entry e) && negb (is_exit e) && negb (is_crash e).

(** Number of positions entered along a trace. *)
Definition entries (tr : list event) : nat := List.length (filter is_entry tr).

(** Number of open positions after one more event.  A position lives in
    the frame of [trailing_stop_loss]: it starts with the entry message sent
    just before the call, and ends when the call returns (after the exit
    message) or when an exception unwinds the frame up to [main], which
    reports the crash. *)
Definition open_after (open : nat) (e : event) : nat :=
  if is_entry e then S open
  else if is_exit e then pred open
  else if is_crash e then O
  else open.

Definition open_positions (tr : list event) : nat := fold_left open_after tr O.

(** At every point of the trace at most one position is open. *)
Definition at_most_one_open (tr : list event) : Prop :=
  forall n, (open_positions (firstn n tr) <= 1)%nat.

(** The same, as a check that scans the trace from [open] open positions. *)
Fixpoint bounded_from (open : nat) (tr : list event) : bool :=
  (open <=? 1)%nat &&
  match tr with
  | [] => true
  | e :: tr' => bounded_from (open_after open e) tr'
  end.

(** A stretch of a run in which no position is entered or left and the
    trade log is not touched. *)
Definition calm (w w' : World) : Prop :=
  trade_log w' = trade_log w /\
  exists q, trace w' = trace w ++ q /\ forallb quiet q = true.

Definition calm_run {A} (m : M A) : Prop := forall w, calm w (world_of (m w)).

(** A stretch of a run that takes the number of open positions from [o] to
    [o'] without ever exceeding one. *)
Definition tracks (o o' : nat) (w w' : World) : Prop :=
  exists d, trace w' = trace w ++ d /\
            bounded_from o d = true /\ fold_left open_after d o = o'.

(** A run of [trailing_stop_loss] for a [ty] position started in [w]: calm
    until, if the call returns, one record is appended to the log and the
    exit message is sent.  A call that raises or is still running has only
    been calm. *)
Definition position_run {A} (ty : side) (w : World) (r : result A) : Prop :=
  match r with
  | Ret _ w' =>
      exists w1 logged rec,
        calm w w1 /\ trade_log w1 = Holds logged /\
        trade_log w' = Holds (logged ++ [rec]) /\
        trace w' = trace w1 ++ [EvTelegram (MsgStopHit ty (exit_price rec))]
  | Raise _ w' | Stuck w' => calm w w'
  end.

(** A monitoring cycle started in [w]: calm throughout, or calm up to one
    chase entry followed by the run of that position. *)
Definition cycle_run {A} (w : World) (r : result A) : Prop :=
  calm w (world_of r) \/
  exists w1 ty p,
    calm w w1 /\ position_run ty (emit (EvTelegram (MsgEntry Chase ty p)) w1) r.

(** What [n] failed attempts leave in the trace: the call, then the
    5-second backoff, [n] times. *)
Definition retry_trace (call : event) (n : nat) : list event :=
  concat (repeat [call; EvSleep 5] n).

(** [n] successive failures of an exchange call with the given texts. *)
Definition failures {A} (texts : list string) : list (exn + A) :=
  map (fun t => inl (Exception t)) texts.

Definition is_retracement (e : event) : bool :=
  match e with EvTelegram (MsgEntry Retracement _ _) => true | _ => false end.

(** The stop after a sequence of observed prices. *)
Definition stop_after (trade_type : side) (entry_price stop_loss : Q)
    (prices : list Q) : Q :=
  fold_left (tighten trade_type entry_price) prices stop_loss.

(** A run that is over: it returned or raised. *)
Definition finished {A} (r : result A) : Prop :=
  match r with
  | Stuck _ => False
  | _ => True
  end.

(** A run that did not end by raising an instance of [Exception]. *)
Definition no_exception {A} (r : result A) : Prop :=
  match r with
  | Raise (Exception _) _ => False
  | _ => True
  end.

(** The events of a price poll: sleeps and ticker requests. *)
Definition polling (e : event) : bool :=
  match e with
  | EvSleep _ | EvFetchTicker => true
  | _ => false
  end.

(** An answer of the ticker that gives no signal in the band [low..high]:
    a failure, or a price neither above [high] nor below [low]. *)
Definition in_band (high low : Q) (a : exn + Q) : bool :=
  match a with
  | inl _ => true
  | inr p => negb (high <? p) && negb (p <? low)
  end.

(** What [n] crashed iterations leave in the trace. *)
Definition crash_trace (text : string) (n : nat) : list event :=
  concat (repeat [EvTelegram (MsgCrashed text); EvSleep 10] n).

(** No price of [prices], taken in order, hits the stop as tightened by the
    prices before it and by itself. *)
Fixpoint survives (trade_type : side) (entry_price stop_loss : Q)
    (prices : list Q) : bool :=
  match prices with
  | [] => true
  | p :: ps =>
      negb (stop_hit trade_type p (tighten trade_type entry_price stop_loss p)) &&
      survives trade_type entry_price (tighten trade_type entry_price stop_loss p) ps
  end.

(** What [n] polls answered at the first attempt leave in the trace. *)
Definition poll_trace (n : nat) : list event :=
  concat (repeat [EvSleep 10; EvFetchTicker] n).

(** Successive calls of [log_trade], as [trailing_stop_loss] makes them. *)
Fixpoint log_trades (ts : list (Q * Q * side)) : M unit :=
  match ts with
  | [] => ret tt
  | (e, x, ty) :: ts' =>
      log_trade e x ty "Trailing Stop Loss Hit" ;; log_trades ts'
  end.

(** ** Scenarios *)

(** One candle with high 110 and low 100. *)
Definition band_candle : Candle := mkCandle 0 105 110 100 105 1.

(** A fresh process: the exchange answers the candle request with
    [band_candle] and the price requests with [ticks]; the log is empty. *)
Definition market (ticks : list (exn + Q)) : World :=
  mkWorld [inr [band_candle]] ticks 0 0 (Holds []) [] [].

(** Price breaks out at 111, pulls back to 105, then falls to 99. *)
Definition pullback_market : World := market [inr 111; inr 105; inr 99].

(** Price breaks out at 112 and falls to 99 without pausing inside the band. *)
Definition runaway_market : World := market [inr 112; inr 99].

(** The user interrupts the process while it waits for the candles. *)
Definition interrupted_market : World :=
  mkWorld [inl (BaseException "KeyboardInterrupt")] [] 0 0 (Holds []) [] [].

(** Thirty days have passed and the log file cannot be parsed. *)
Definition broken_log_market : World :=
  mkWorld [inr [band_candle]] [] THIRTY_DAYS 0
          (Unreadable "Expecting value: line 1 column 1 (char 0)") [] [].

(** The log file cannot be parsed when a position is to be closed. *)
Definition lost_log_market : World :=
  mkWorld [inr [band_candle]] [inr 111; inr 99] 0 0
          (Unreadable "Expecting value: line 1 column 1 (char 0)") [] [].

(** The exchange fails three times in a row on both calls. *)
Definition outage (w : World) : World :=
  mkWorld (failures ["timeout"; "timeout"; "timeout"]%string ++ ohlcv_feed w)
          (failures ["timeout"; "timeout"; "timeout"]%string ++ ticker_feed w)
          (clock w) (start_time w) (trade_log w) (summary_file w) (trace w).

(** ** Facts about the numeric helpers *)

Lemma Qltb_iff (x y : Q) : (x <? y) = true <-> x < y.
Proof.
  unfold Qltb. rewrite negb_true_iff. split; intro H.
  - apply Qnot_le_lt. intro Hle. apply Qle_bool_iff in Hle. congruence.
  - destruct (Qle_bool y x) eqn:E; [|reflexivity].
    apply Qle_bool_iff in E. exfalso. exact (Qlt_not_le _ _ H E).
Qed.

Lemma Qltb_false_iff (x y : Q) : (x <? y) = false <-> y <= x.
Proof.
  unfold Qltb. rewrite negb_false_iff. apply Qle_bool_iff.
Qed.

Lemma py_max_ge_l (a b : Q) : a <= py_max a b.
Proof.
  unfold py_max. destruct (a <? b) eqn:E.
  - apply Qlt_le_weak, Qltb_iff, E.
  - apply Qle_refl.
Qed.

Lemma py_max_ge_r (a b : Q) : b <= py_max a b.
Proof.
  unfold py_max. destruct (a <? b) eqn:E.
  - apply Qle_refl.
  - apply Qltb_false_iff, E.
Qed.

Lemma py_min_le_l (a b : Q) : py_min a b <= a.
Proof.
  unfold py_min. destruct (b <? a) eqn:E.
  - apply Qlt_le_weak, Qltb_iff, E.
  - apply Qle_refl.
Qed.

Lemma py_min_le_r (a b : Q) : py_min a b <= b.
Proof.
  unfold py_min. destruct (b <? a) eqn:E.
  - apply Qle_refl.
  - apply Qltb_false_iff, E.
Qed.

Lemma py_max_of_spec (xs : list Q) (x0 : Q) :
  In (py_max_of x0 xs) (x0 :: xs) /\
  forall x, In x (x0 :: xs) -> x <= py_max_of x0 xs.
Proof.
  unfold py_max_of. revert x0. induction xs as [|y ys IH]; intro x0; simpl.
  - split; [now left|]. intros x [<-|[]]. apply Qle_refl.
  - destruct (IH (py_max x0 y)) as [Hin Hub]. split.
    + destruct Hin as [Hin|Hin]; [|now right; right].
      rewrite <- Hin. unfold py_max. destruct (x0 <? y); [right|]; now left.
    + intros x [<-|[<-|Hx]].
      * eapply Qle_trans; [apply py_max_ge_l|]. apply Hub. now left.
      * eapply Qle_trans; [apply py_max_ge_r|]. apply Hub. now left.
      * apply Hub. now right.
Qed.

Lemma py_min_of_spec (xs : list Q) (x0 : Q) :
  In (py_min_of x0 xs) (x0 :: xs) /\
  forall x, In x (x0 :: xs) -> py_min_of x0 xs <= x.
Proof.
  unfold py_min_of. revert x0. induction xs as [|y ys IH]; intro x0; simpl.
  - split; [now left|]. intros x [<-|[]]. apply Qle_refl.
  - destruct (IH (py_min x0 y)) as [Hin Hlb]. split.
    + destruct Hin as [Hin|Hin]; [|now right; right].
      rewrite <- Hin. unfold py_min. destruct (y <? x0); [right|]; now left.
    + intros x [<-|[<-|Hx]].
      * eapply Qle_trans; [|apply py_min_le_l]. apply Hlb. now left.
      * eapply Qle_trans; [|apply py_min_le_r]. apply Hlb. now left.
      * apply Hlb. now right.
Qed.

(** ** Rounding *)

Lemma round_half_even_close (q : Q) :
  Qabs (inject_Z (round_half_even q) - q) <= 1 # 2.
Proof.
  destruct q as [n d]. unfold round_half_even. cbn [Qnum Qden].
  pose proof (Z.div_mod n (Z.pos d) ltac:(discriminate)) as Hdm.
  pose proof (Z.mod_pos_bound n (Z.pos d) ltac:(reflexivity)) as Hb.
  set (f := (n / Z.pos d)%Z) in *. set (r := (n mod Z.pos d)%Z) in *.
  clearbody f r. subst n.
  apply Qabs_Qle_condition.
  destruct (2 * r ?= Z.pos d)%Z eqn:E.
  - apply Z.compare_eq_iff in E.
    destruct (Z.even f); split; unfold Qle, Qminus, Qplus, Qopp, inject_Z;
      cbn [Qnum Qden]; rewrite Pos.mul_1_l; lia.
  - change (2 * r < Z.pos d)%Z in E.
    split; unfold Qle, Qminus, Qplus, Qopp, inject_Z; cbn [Qnum Qden];
      rewrite Pos.mul_1_l; lia.
  - change (2 * r > Z.pos d)%Z in E.
    split; unfold Qle, Qminus, Qplus, Qopp, inject_Z; cbn [Qnum Qden];
      rewrite Pos.mul_1_l; lia.
Qed.

Lemma py_round_4_unfold (x : Q) :
  py_round x 4 = round_half_even (x * (10000 # 1)) # 10000.
Proof. reflexivity. Qed.

Lemma py_round_4_close (x : Q) : Qabs (py_round x 4 - x) <= 1 # 20000.
Proof.
  rewrite py_round_4_unfold.
  set (k := round_half_even (x * (10000 # 1))).
  assert (E : (k # 10000) - x == (inject_Z k - x * (10000 # 1)) * (1 # 10000)).
  { assert (Ek : k # 10000 == inject_Z k * (1 # 10000)).
    { unfold Qeq, Qmult, inject_Z. cbn [Qnum Qden]. lia. }
    rewrite Ek. ring. }
  rewrite E, Qabs_Qmult.
  change (1 # 20000) with ((1 # 2) * (1 # 10000)).
  change (Qabs (1 # 10000)) with (1 # 10000).
  apply Qmult_le_compat_r; [apply round_half_even_close | discriminate].
Qed.

Lemma round_half_even_opp (q : Q) :
  round_half_even (- q) = (- round_half_even q)%Z.
Proof.
  destruct q as [n d]. unfold round_half_even, Qopp. cbn [Qnum Qden].
  pose proof (Z.div_mod n (Z.pos d) ltac:(discriminate)) as Hn.
  pose proof (Z.mod_pos_bound n (Z.pos d) ltac:(reflexivity)) as Bn.
  pose proof (Z.div_mod (- n) (Z.pos d) ltac:(discriminate)) as Ho.
  pose proof (Z.mod_pos_bound (- n) (Z.pos d) ltac:(reflexivity)) as Bo.
  set (f := (n / Z.pos d)%Z) in *. set (r := (n mod Z.pos d)%Z) in *.
  set (f' := (- n / Z.pos d)%Z) in *. set (r' := (- n mod Z.pos d)%Z) in *.
  clearbody f r f' r'.
  assert (Hs : (Z.pos d * (f + f') = - (r + r'))%Z) by lia.
  assert (Ht : (f + f' = 0 \/ f + f' = -1)%Z) by nia.
  assert (C : (r = 0 /\ f' = - f /\ r' = 0)%Z \/
              (0 < r /\ f' = - f - 1 /\ r' = Z.pos d - r)%Z).
  { destruct Ht as [Ht|Ht]; rewrite Ht in Hs; [left|right]; lia. }
  destruct C as [(-> & -> & ->)|(Hr & -> & ->)].
  - cbn. lia.
  - assert (Ev : Z.even (- f - 1) = negb (Z.even f)).
    { replace (- f - 1)%Z with (- (f + 1))%Z by lia.
      rewrite Z.even_opp, Z.even_add. cbn. now destruct (Z.even f). }
    rewrite Ev.
    destruct (Z.compare_spec (2 * r) (Z.pos d)) as [E|E|E];
      destruct (Z.compare_spec (2 * (Z.pos d - r)) (Z.pos d)) as [E'|E'|E'];
      try lia; destruct (Z.even f); cbn [negb]; lia.
Qed.

Lemma round_half_even_exact (q : Q) (k : Z) :
  q == inject_Z k -> round_half_even q = k.
Proof.
  intro H. pose proof (round_half_even_close q) as C.
  apply Qabs_Qle_condition in C. destruct C as [C1 C2].
  set (j := round_half_even q) in *. clearbody j. destruct q as [n d].
  unfold Qeq, Qle, Qminus, Qplus, Qopp, inject_Z in *. cbn [Qnum Qden] in *.
  rewrite Pos.mul_1_l in C1, C2. nia.
Qed.

Lemma round_half_even_compat (q1 q2 : Q) :
  q1 == q2 -> round_half_even q1 = round_half_even q2.
Proof.
  destruct q1 as [n1 d1], q2 as [n2 d2]. unfold Qeq, round_half_even.
  cbn [Qnum Qden]. intro H.
  assert (Hf : (n1 / Z.pos d1 = n2 / Z.pos d2)%Z).
  { rewrite <- (Z.div_mul_cancel_r n1 (Z.pos d1) (Z.pos d2)) by discriminate.
    rewrite H, (Z.mul_comm (Z.pos d1) (Z.pos d2)).
    apply Z.div_mul_cancel_r; discriminate. }
  rewrite !Z.mod_eq by discriminate. rewrite <- Hf.
  set (f := (n1 / Z.pos d1)%Z). clearbody f. clear Hf.
  destruct (Z.compare_spec (2 * (n1 - Z.pos d1 * f)) (Z.pos d1)) as [E|E|E];
    destruct (Z.compare_spec (2 * (n2 - Z.pos d2 * f)) (Z.pos d2)) as [E'|E'|E'];
    try reflexivity; exfalso; nia.
Qed.

Lemma py_round_4_compat (x y : Q) : x == y -> py_round x 4 = py_round y 4.
Proof.
  intro H. rewrite !py_round_4_unfold. f_equal.
  apply round_half_even_compat. now rewrite H.
Qed.

Lemma py_round_4_exact (x : Q) (k : Z) : x == k # 10000 -> py_round x 4 = k # 10000.
Proof.
  intro H. rewrite py_round_4_unfold. f_equal.
  apply round_half_even_exact. rewrite H.
  unfold Qeq, Qmult, inject_Z. cbn [Qnum Qden]. lia.
Qed.

Lemma py_round_4_opp (x y : Q) : x == - y -> py_round x 4 = - py_round y 4.
Proof.
  intro H. rewrite !py_round_4_unfold.
  assert (E : round_half_even (x * (10000 # 1)) =
              (- round_half_even (y * (10000 # 1)))%Z).
  { rewrite <- round_half_even_opp. apply round_half_even_compat.
    rewrite H. ring. }
  rewrite E. reflexivity.
Qed.

Lemma py_sum_from (xs : list Q) (a : Q) : fold_left Qplus xs a == a + Qsum xs.
Proof.
  revert a. induction xs as [|x xs IH]; intro a; simpl.
  - ring.
  - rewrite IH. ring.
Qed.

Lemma py_sum_Qsum (xs : list Q) : py_sum xs == Qsum xs.
Proof. unfold py_sum. rewrite py_sum_from. ring. Qed.

(** ** Trade log *)

Lemma log_trade_run (w : World) (logged : list TradeRecord)
    (e x : Q) (ty : side) (why : string) :
  trade_log w = Holds logged ->
  log_trade e x ty why w =
  Ret tt (mkWorld (ohlcv_feed w) (ticker_feed w) (clock w) (start_time w)
            (Holds (logged ++
               [mkTrade e x ty (py_round (signed_move ty e x * TRADE_AMOUNT) 4)
                        (clock w) why]))
            (summary_file w) (trace w)).
Proof.
  intro H. unfold log_trade, bind, now, load_trade_log, dump_trade_log.
  rewrite H. destruct ty; reflexivity.
Qed.

Lemma log_trade_unreadable (w : World) (error : string)
    (e x : Q) (ty : side) (why : string) :
  trade_log w = Unreadable error ->
  log_trade e x ty why w = Raise (Exception error) w.
Proof.
  intro H. unfold log_trade, bind, now, load_trade_log. rewrite H. reflexivity.
Qed.

(** ** Claims about the pure parts *)

(** C4. [get_high_low] returns [(None, None)] exactly on the empty list; on
    a non-empty list it returns a pair [(high, low)] where [high] is one of
    the candles' highs and is at least every candle's high, and [low] is one
    of the candles' lows and is at most every candle's low. *)
Theorem get_high_low_spec :
  (forall candles, get_high_low candles = (None, None) <-> candles = []) /\
  (forall c cs, exists high low,
      get_high_low (c :: cs) = (Some high, Some low) /\
      In high (map c_high (c :: cs)) /\
      In low (map c_low (c :: cs)) /\
      forall c', In c' (c :: cs) -> c_high c' <= high /\ low <= c_low c').
Proof.
  split.
  - intros [|c cs]; simpl; split; intro H; try reflexivity; discriminate.
  - intros c cs.
    exists (py_max_of (c_high c) (map c_high cs)),
           (py_min_of (c_low c) (map c_low cs)).
    destruct (py_max_of_spec (map c_high cs) (c_high c)) as [Hin Hub].
    destruct (py_min_of_spec (map c_low cs) (c_low c)) as [Hin' Hlb].
    repeat split; try assumption.
    + apply Hub. change (In (c_high c') (map c_high (c :: cs))).
      now apply in_map.
    + apply Hlb. change (In (c_low c') (map c_low (c :: cs))).
      now apply in_map.
Qed.

(** C3, as the code has it.  When the log holds a JSON array, [log_trade]
    appends one record with the given prices and side whose [profit_loss]
    is (exit - entry) x amount for LONG and (entry - exit) x amount for
    SHORT, rounded to 4 decimal places: a whole number of ten-thousandths
    within half a ten-thousandth of that product, and equal to it whenever
    the product is itself a whole number of ten-thousandths.  The same pair
    of prices logged on the other side, or with entry and exit exchanged,
    records the opposite value. *)
Theorem recorded_profit_is_rounded_move :
  forall w logged e x ty why,
    trade_log w = Holds logged ->
    exists r w',
      log_trade e x ty why w = Ret tt w' /\
      trade_log w' = Holds (logged ++ [r]) /\
      entry_price r = e /\ exit_price r = x /\ trade_type r = ty /\
      (exists k : Z, profit_loss r = k # 10000) /\
      match ty with
      | LONG =>
          Qabs (profit_loss r - (x - e) * TRADE_AMOUNT) <= 1 # 20000 /\
          forall k : Z,
            (x - e) * TRADE_AMOUNT == k # 10000 -> profit_loss r = k # 10000
      | SHORT =>
          Qabs (profit_loss r - (e - x) * TRADE_AMOUNT) <= 1 # 20000 /\
          forall k : Z,
            (e - x) * TRADE_AMOUNT == k # 10000 -> profit_loss r = k # 10000
      end /\
      (forall r2 w2,
          log_trade e x (match ty with LONG => SHORT | SHORT => LONG end) why w =
            Ret tt w2 ->
          trade_log w2 = Holds (logged ++ [r2]) ->
          profit_loss r2 = - profit_loss r) /\
      (forall r2 w2,
          log_trade x e ty why w = Ret tt w2 ->
          trade_log w2 = Holds (logged ++ [r2]) ->
          profit_loss r2 = - profit_loss r).
Proof.
  intros w logged e x ty why H.
  eexists. eexists. rewrite (log_trade_run _ _ _ _ _ _ H).
  split; [reflexivity|]. cbn [trade_log]. split; [reflexivity|].
  cbn [entry_price exit_price trade_type profit_loss].
  do 3 (split; [reflexivity|]).
  split; [eexists; apply py_round_4_unfold|].
  split; [|split].
  - destruct ty; cbn [signed_move];
      (split; [apply py_round_4_close | intros k Hk; now apply py_round_4_exact]).
  - intros r2 w2 H2 L2. rewrite (log_trade_run _ _ _ _ _ _ H) in H2.
    inversion H2. subst w2. cbn [trade_log] in L2.
    injection L2 as L2. apply app_inj_tail in L2 as [_ <-].
    cbn [profit_loss]. apply py_round_4_opp.
    destruct ty; cbn [signed_move]; ring.
  - intros r2 w2 H2 L2. rewrite (log_trade_run _ _ _ _ _ _ H) in H2.
    inversion H2. subst w2. cbn [trade_log] in L2.
    injection L2 as L2. apply app_inj_tail in L2 as [_ <-].
    cbn [profit_loss]. apply py_round_4_opp.
    destruct ty; cbn [signed_move]; ring.
Qed.

(** C10. The [profit_loss] that [log_trade] appends to the log is a whole
    number of ten-thousandths, within half a ten-thousandth of the unrounded
    (exit - entry) x amount (LONG) or (entry - exit) x amount (SHORT). *)
Theorem recorded_profit_has_four_decimals :
  forall w logged e x ty why,
    trade_log w = Holds logged ->
    exists r w',
      log_trade e x ty why w = Ret tt w' /\
      trade_log w' = Holds (logged ++ [r]) /\
      (exists k : Z, profit_loss r = k # 10000) /\
      Qabs (profit_loss r - signed_move ty e x * TRADE_AMOUNT) <= 1 # 20000.
Proof.
  intros w logged e x ty why H.
  eexists. eexists. rewrite (log_trade_run _ _ _ _ _ _ H).
  split; [reflexivity|]. cbn [trade_log profit_loss]. split; [reflexivity|]. split.
  - eexists. apply py_round_4_unfold.
  - apply py_round_4_close.
Qed.

(** C5. When the log holds a JSON array, [generate_summary] appends to the
    archive a record whose total is the sum of the logged [profit_loss]
    values, whose count is the number of logged trades and whose trades are
    the logged ones, and leaves the log holding the empty array; on an empty
    log the total is 0 and the count is 0. *)
Theorem generate_summary_spec :
  forall w logged,
    trade_log w = Holds logged ->
    exists s w',
      generate_summary w = Ret tt w' /\
      summary_file w' = summary_file w ++ [s] /\
      total_profit_loss s == Qsum (map profit_loss logged) /\
      trade_count s = List.length logged /\
      trades s = logged /\
      trade_log w' = Holds [] /\
      (logged = [] -> total_profit_loss s = 0 /\ trade_count s = 0%nat).
Proof.
  intros w logged H.
  unfold generate_summary, bind, now, load_trade_log, append_summary,
    dump_trade_log, send_telegram_message, emit.
  rewrite H. cbn. eexists. eexists. split; [reflexivity|]. cbn.
  repeat split.
  - apply py_sum_Qsum.
  - subst logged. reflexivity.
  - subst logged. reflexivity.
Qed.

(** ** Calm stretches *)

Lemma calm_refl (w : World) : calm w w.
Proof. split; [reflexivity|]. exists []. now rewrite app_nil_r. Qed.

Lemma calm_trans (w1 w2 w3 : World) : calm w1 w2 -> calm w2 w3 -> calm w1 w3.
Proof.
  intros [L1 (q1 & T1 & Q1)] [L2 (q2 & T2 & Q2)]. split; [congruence|].
  exists (q1 ++ q2). split.
  - now rewrite T2, T1, app_assoc.
  - now rewrite forallb_app, Q1, Q2.
Qed.

Lemma calm_emit (e : event) (w : World) : quiet e = true -> calm w (emit e w).
Proof.
  intro H. split; [reflexivity|]. exists [e]. split; [reflexivity|].
  simpl. now rewrite H.
Qed.

Lemma calm_elapse (seconds : Z) (w : World) : calm w (elapse seconds w).
Proof. split; [reflexivity|]. now exists [EvSleep seconds]. Qed.

Lemma calm_ret {A} (a : A) : calm_run (ret a).
Proof. intro w. apply calm_refl. Qed.

Lemma calm_stuck {A} : calm_run (@stuck A).
Proof. intro w. apply calm_refl. Qed.

Lemma calm_bind {A B} (m : M A) (k : A -> M B) :
  calm_run m -> (forall a, calm_run (k a)) -> calm_run (bind m k).
Proof.
  intros Hm Hk w. unfold bind. specialize (Hm w).
  destruct (m w) as [a w'|e w'|w']; simpl in *; try assumption.
  eapply calm_trans; [exact Hm | apply Hk].
Qed.

Lemma calm_try_except {A} (body : M A) (handler : string -> M A) :
  calm_run body -> (forall text, calm_run (handler text)) ->
  calm_run (try_except body handler).
Proof.
  intros Hb Hh w. unfold try_except. specialize (Hb w).
  destruct (body w) as [a w'|[text|text] w'|w']; simpl in *; try assumption.
  eapply calm_trans; [exact Hb | apply Hh].
Qed.

Lemma calm_sleep (seconds : Z) : calm_run (sleep seconds).
Proof. intro w. apply calm_elapse. Qed.

Lemma calm_send (m : message) :
  quiet (EvTelegram m) = true -> calm_run (send_telegram_message m).
Proof. intros H w. now apply calm_emit. Qed.

Lemma calm_fetch_ohlcv : calm_run fetch_ohlcv.
Proof.
  intro w. unfold fetch_ohlcv. destruct (ohlcv_feed w) as [|[e|c] rest];
    simpl; try apply calm_refl; (split; [reflexivity|]; now exists [EvFetchOhlcv]).
Qed.

Lemma calm_fetch_ticker_last : calm_run fetch_ticker_last.
Proof.
  intro w. unfold fetch_ticker_last. destruct (ticker_feed w) as [|[e|c] rest];
    simpl; try apply calm_refl; (split; [reflexivity|]; now exists [EvFetchTicker]).
Qed.

Lemma calm_fetch_candles_from (n : nat) : calm_run (fetch_candles_from n).
Proof.
  induction n as [|n IH]; simpl; [apply calm_ret|].
  apply calm_bind.
  - apply calm_try_except; [|intro; apply calm_ret].
    apply calm_bind; [apply calm_fetch_ohlcv | intro; apply calm_ret].
  - intros [c|]; [apply calm_ret|].
    apply calm_bind; [apply calm_sleep | intro; exact IH].
Qed.

Lemma calm_get_current_price_from (n : nat) : calm_run (get_current_price_from n).
Proof.
  induction n as [|n IH]; simpl; [apply calm_ret|].
  apply calm_bind.
  - apply calm_try_except; [|intro; apply calm_ret].
    apply calm_bind; [apply calm_fetch_ticker_last | intro; apply calm_ret].
  - intros [c|]; [apply calm_ret|].
    apply calm_bind; [apply calm_sleep | intro; exact IH].
Qed.

Lemma calm_get_current_price : calm_run get_current_price.
Proof. apply calm_get_current_price_from. Qed.

Lemma calm_fetch_candles : calm_run fetch_candles.
Proof. apply calm_fetch_candles_from. Qed.

Lemma calm_update_signal (high low : Q) (sig : option side) (p : Q) :
  calm_run (update_signal high low sig p).
Proof.
  unfold update_signal. destruct sig; [apply calm_ret|].
  destruct (high <? p).
  - apply calm_bind; [now apply calm_send | intro; apply calm_ret].
  - destruct (p <? low); [|apply calm_ret].
    apply calm_bind; [now apply calm_send | intro; apply calm_ret].
Qed.

(** The poll that opens every loop iteration: sleep 10, then ask the price. *)
Lemma calm_poll (w : World) :
  calm w (world_of (get_current_price (elapse 10 w))).
Proof.
  eapply calm_trans; [apply calm_elapse | apply calm_get_current_price].
Qed.

(** ** The position monitor and the monitoring cycle, as runs *)

Lemma Qltb_asym (x y : Q) : (x <? y) = true -> (y <? x) = false.
Proof.
  intro H. apply Qltb_false_iff, Qlt_le_weak, Qltb_iff, H.
Qed.

Lemma position_run_after_calm {A} (ty : side) (w w1 : World) (r : result A) :
  calm w w1 -> position_run ty w1 r -> position_run ty w r.
Proof.
  intros C H. destruct r as [a w'|x w'|w']; cbn [position_run] in *.
  - destruct H as (w2 & logged & rec & C' & H).
    exists w2, logged, rec. split; [|exact H]. eapply calm_trans; eassumption.
  - eapply calm_trans; eassumption.
  - eapply calm_trans; eassumption.
Qed.

(** One iteration of the trailing-stop loop, by the outcome of its poll. *)
Lemma trailing_stop_loss_step (fuel : nat) (e s : Q) (ty : side) (w : World) :
  trailing_stop_loss (S fuel) e s ty w =
  match get_current_price (elapse 10 w) with
  | Ret (Some p) w1 =>
      if stop_hit ty p (tighten ty e s p)
      then (log_trade e p ty "Trailing Stop Loss Hit" ;;
            send_telegram_message (MsgStopHit ty p)) w1
      else trailing_stop_loss fuel e (tighten ty e s p) ty w1
  | Ret None w1 => trailing_stop_loss fuel e s ty w1
  | Raise x w1 => Raise x w1
  | Stuck w1 => Stuck w1
  end.
Proof.
  cbn [trailing_stop_loss]. unfold bind at 1. cbn [sleep]. unfold bind at 1.
  destruct (get_current_price (elapse 10 w)) as [[p|] w1|x w1|w1];
    try reflexivity.
  destruct (stop_hit ty p (tighten ty e s p)); reflexivity.
Qed.

Lemma trailing_stop_loss_run (fuel : nat) (e s : Q) (ty : side) (w : World) :
  position_run ty w (trailing_stop_loss fuel e s ty w).
Proof.
  revert s w. induction fuel as [|fuel IH]; intros s w.
  - apply calm_refl.
  - rewrite trailing_stop_loss_step.
    pose proof (calm_poll w) as Hp.
    destruct (get_current_price (elapse 10 w)) as [[p|] w1|x w1|w1];
      cbn [world_of] in Hp; try exact Hp.
    + destruct (stop_hit ty p (tighten ty e s p)).
      * unfold bind. destruct (trade_log w1) as [error|logged] eqn:L.
        -- rewrite (log_trade_unreadable _ _ _ _ _ _ L). exact Hp.
        -- rewrite (log_trade_run _ _ _ _ _ _ L).
           cbn [position_run send_telegram_message]. eexists w1, logged, _.
           split; [exact Hp|]. split; [exact L|]. split; reflexivity.
      * eapply position_run_after_calm; [exact Hp | apply IH].
    + eapply position_run_after_calm; [exact Hp | apply IH].
Qed.

Lemma position_run_bind_ret {A B} (ty : side) (w0 w : World) (m : M A) (b : B) :
  position_run ty w0 (m w) -> position_run ty w0 (bind m (fun _ => ret b) w).
Proof. unfold bind. destruct (m w); exact (fun H => H). Qed.

Lemma cycle_run_after_calm {A} (w w1 : World) (r : result A) :
  calm w w1 -> cycle_run w1 r -> cycle_run w r.
Proof.
  intros C [H|(w2 & ty & p & C' & H)].
  - left. eapply calm_trans; eassumption.
  - right. exists w2, ty, p. split; [|exact H]. eapply calm_trans; eassumption.
Qed.

(** The three ways an iteration that starts without a signal treats a
    price: above the band, below it, inside it. *)
Lemma on_price_breakout_long (fuel : nat) (high low p : Q) (w : World) :
  (high <? p) = true ->
  on_price fuel high low None p w =
  (trailing_stop_loss fuel p low LONG ;; ret Break)
    (emit (EvTelegram (MsgEntry Chase LONG p))
       (emit (EvTelegram (MsgSignal LONG high)) w)).
Proof.
  intro H. unfold on_price, update_signal. rewrite H.
  unfold bind at 1. unfold bind at 1. cbn [send_telegram_message ret].
  unfold entry_branch. rewrite H, (Qltb_asym _ _ H), andb_false_r.
  reflexivity.
Qed.

Lemma on_price_breakout_short (fuel : nat) (high low p : Q) (w : World) :
  (high <? p) = false -> (p <? low) = true ->
  on_price fuel high low None p w =
  (trailing_stop_loss fuel p high SHORT ;; ret Break)
    (emit (EvTelegram (MsgEntry Chase SHORT p))
       (emit (EvTelegram (MsgSignal SHORT low)) w)).
Proof.
  intros H H'. unfold on_price, update_signal. rewrite H, H'.
  unfold bind at 1. unfold bind at 1. cbn [send_telegram_message ret].
  unfold entry_branch. rewrite H', (Qltb_asym _ _ H').
  reflexivity.
Qed.

Lemma on_price_inside (fuel : nat) (high low p : Q) (w : World) :
  (high <? p) = false -> (p <? low) = false ->
  on_price fuel high low None p w = Ret (Continue None) w.
Proof.
  intros H H'. unfold on_price, update_signal. rewrite H, H'. reflexivity.
Qed.

(** One iteration of the monitoring loop, by the outcome of its poll. *)
Lemma monitor_iteration_step (fuel : nat) (high low : Q) (sig : option side)
    (w : World) :
  monitor_iteration fuel high low sig w =
  match get_current_price (elapse 10 w) with
  | Ret (Some p) w1 => on_price fuel high low sig p w1
  | Ret None w1 => Ret (Continue sig) w1
  | Raise x w1 => Raise x w1
  | Stuck w1 => Stuck w1
  end.
Proof.
  unfold monitor_iteration. unfold bind at 1. cbn [sleep]. unfold bind at 1.
  destruct (get_current_price (elapse 10 w)) as [[p|] w1|x w1|w1]; reflexivity.
Qed.

Lemma on_price_cycle (fuel : nat) (high low p : Q) (w : World) :
  match on_price fuel high low None p w with
  | Ret (Continue s') w' => s' = None /\ calm w w'
  | r => cycle_run w r
  end.
Proof.
  destruct (high <? p) eqn:H; [|destruct (p <? low) eqn:H'].
  - rewrite (on_price_breakout_long _ _ _ _ _ H).
    set (w1 := emit (EvTelegram (MsgSignal LONG high)) w).
    set (w2 := emit (EvTelegram (MsgEntry Chase LONG p)) w1).
    assert (C : calm w w1) by now apply calm_emit.
    pose proof (trailing_stop_loss_run fuel p low LONG w2) as R.
    unfold bind.
    destruct (trailing_stop_loss fuel p low LONG w2) as [[] w'|x w'|w'];
      cbn [ret]; right; exists w1, LONG, p; (split; [exact C | exact R]).
  - rewrite (on_price_breakout_short _ _ _ _ _ H H').
    set (w1 := emit (EvTelegram (MsgSignal SHORT low)) w).
    set (w2 := emit (EvTelegram (MsgEntry Chase SHORT p)) w1).
    assert (C : calm w w1) by now apply calm_emit.
    pose proof (trailing_stop_loss_run fuel p high SHORT w2) as R.
    unfold bind.
    destruct (trailing_stop_loss fuel p high SHORT w2) as [[] w'|x w'|w'];
      cbn [ret]; right; exists w1, SHORT, p; (split; [exact C | exact R]).
  - rewrite (on_price_inside _ _ _ _ _ H H'). split; [reflexivity | apply calm_refl].
Qed.

Lemma monitor_iteration_cycle (fuel : nat) (high low : Q) (w : World) :
  match monitor_iteration fuel high low None w with
  | Ret (Continue s') w' => s' = None /\ calm w w'
  | r => cycle_run w r
  end.
Proof.
  rewrite monitor_iteration_step. pose proof (calm_poll w) as Hp.
  destruct (get_current_price (elapse 10 w)) as [[p|] w1|x w1|w1];
    cbn [world_of] in Hp.
  - pose proof (on_price_cycle fuel high low p w1) as H.
    destruct (on_price fuel high low None p w1) as [[s'|] w'|x w'|w'].
    + destruct H as [-> C]. split; [reflexivity|]. eapply calm_trans; eassumption.
    + eapply cycle_run_after_calm; eassumption.
    + eapply cycle_run_after_calm; eassumption.
    + eapply cycle_run_after_calm; eassumption.
  - split; [reflexivity | exact Hp].
  - left. exact Hp.
  - left. exact Hp.
Qed.

Lemma monitor_loop_cycle (fuel : nat) (high low : Q) (w : World) :
  cycle_run w (monitor_loop fuel high low None w).
Proof.
  revert w. induction fuel as [|fuel IH]; intro w.
  - left. apply calm_refl.
  - cbn [monitor_loop]. unfold bind.
    pose proof (monitor_iteration_cycle fuel high low w) as H.
    destruct (monitor_iteration fuel high low None w) as [[s'|] w'|x w'|w'].
    + destruct H as [-> C]. eapply cycle_run_after_calm; [exact C | apply IH].
    + destruct H as [H|(w1 & ty & p & C & H)]; [left; exact H|].
      right. exists w1, ty, p. split; [exact C | exact H].
    + exact H.
    + exact H.
Qed.

Lemma monitor_market_cycle (fuel : nat) (w : World) :
  cycle_run w (monitor_market fuel w).
Proof.
  unfold monitor_market. unfold bind at 1.
  pose proof (calm_fetch_candles w) as Hf.
  destruct (fetch_candles w) as [candles w1|x w1|w1]; cbn [world_of] in Hf;
    try (left; exact Hf).
  destruct candles as [|c cs]; cbn [get_high_low]; [left; exact Hf|].
  unfold bind. cbn [send_telegram_message].
  eapply cycle_run_after_calm; [|apply monitor_loop_cycle].
  eapply calm_trans; [exact Hf | now apply calm_emit].
Qed.

(** ** Counting positions along a trace *)

Lemma quiet_not_entry (e : event) : quiet e = true -> is_entry e = false.
Proof. unfold quiet. destruct (is_entry e); [discriminate | reflexivity]. Qed.

Lemma open_after_quiet (o : nat) (e : event) : quiet e = true -> open_after o e = o.
Proof.
  unfold quiet, open_after.
  destruct (is_entry e), (is_exit e), (is_crash e); try discriminate; reflexivity.
Qed.

Lemma fold_open_quiet (q : list event) (o : nat) :
  forallb quiet q = true -> fold_left open_after q o = o.
Proof.
  induction q as [|e q IH]; simpl; [reflexivity|].
  intro H. apply andb_true_iff in H as [He Hq].
  now rewrite (open_after_quiet _ _ He), IH.
Qed.

Lemma bounded_quiet (q : list event) (o : nat) :
  forallb quiet q = true -> (o <= 1)%nat -> bounded_from o q = true.
Proof.
  intros H Ho. apply Nat.leb_le in Ho.
  induction q as [|e q IH]; simpl; rewrite Ho; [reflexivity|].
  simpl in H. apply andb_true_iff in H as [He Hq].
  rewrite (open_after_quiet _ _ He). simpl. now apply IH.
Qed.

Lemma bounded_from_le (d : list event) (o : nat) :
  bounded_from o d = true -> (o <= 1)%nat.
Proof.
  destruct d; simpl; intro H; apply andb_true_iff in H as [H _];
    now apply Nat.leb_le.
Qed.

Lemma bounded_from_app (d1 d2 : list event) (o : nat) :
  bounded_from o (d1 ++ d2) =
  bounded_from o d1 && bounded_from (fold_left open_after d1 o) d2.
Proof.
  revert o. induction d1 as [|e d1 IH]; intro o; simpl.
  - destruct d2; simpl; destruct (o <=? 1)%nat; reflexivity.
  - rewrite IH. now rewrite andb_assoc.
Qed.

Lemma bounded_from_final (d : list event) (o : nat) :
  bounded_from o d = true -> (fold_left open_after d o <= 1)%nat.
Proof.
  revert o. induction d as [|e d IH]; intro o; simpl; intro H;
    apply andb_true_iff in H as [H1 H2].
  - now apply Nat.leb_le.
  - now apply IH.
Qed.

Lemma bounded_from_prefix (d : list event) (o n : nat) :
  bounded_from o d = true -> (fold_left open_after (firstn n d) o <= 1)%nat.
Proof.
  revert o n. induction d as [|e d IH]; intros o n H.
  - rewrite firstn_nil. simpl. now apply (bounded_from_le []).
  - destruct n as [|n]; simpl.
    + now apply (bounded_from_le (e :: d)).
    + simpl in H. apply andb_true_iff in H as [_ H]. now apply IH.
Qed.

Lemma bounded_from_sound (d : list event) :
  bounded_from 0 d = true -> at_most_one_open d.
Proof. intros H n. now apply bounded_from_prefix. Qed.

Lemma entries_app (d1 d2 : list event) :
  entries (d1 ++ d2) = (entries d1 + entries d2)%nat.
Proof. unfold entries. now rewrite filter_app, length_app. Qed.

Lemma entries_quiet (q : list event) : forallb quiet q = true -> entries q = 0%nat.
Proof.
  unfold entries. induction q as [|e q IH]; simpl; [reflexivity|].
  intro H. apply andb_true_iff in H as [He Hq].
  rewrite (quiet_not_entry _ He). now apply IH.
Qed.

Lemma tracks_trans (a b c : nat) (w1 w2 w3 : World) :
  tracks a b w1 w2 -> tracks b c w2 w3 -> tracks a c w1 w3.
Proof.
  intros (d1 & T1 & B1 & F1) (d2 & T2 & B2 & F2). exists (d1 ++ d2).
  repeat split.
  - now rewrite T2, T1, app_assoc.
  - now rewrite bounded_from_app, B1, F1, B2.
  - now rewrite fold_left_app, F1, F2.
Qed.

Lemma tracks_quiet (o : nat) (w w' : World) (q : list event) :
  (o <= 1)%nat -> trace w' = trace w ++ q -> forallb quiet q = true ->
  tracks o o w w'.
Proof.
  intros Ho T Q. exists q. repeat split; try assumption.
  - now apply bounded_quiet.
  - now apply fold_open_quiet.
Qed.

Lemma tracks_calm (o : nat) (w w' : World) :
  (o <= 1)%nat -> calm w w' -> tracks o o w w'.
Proof. intros Ho [_ (q & T & Q)]. eapply tracks_quiet; eassumption. Qed.

Lemma tracks_emit (o : nat) (e : event) (w : World) :
  (o <= 1)%nat -> (open_after o e <= 1)%nat ->
  tracks o (open_after o e) w (emit e w).
Proof.
  intros Ho Ho'. exists [e]. repeat split. simpl.
  apply Nat.leb_le in Ho, Ho'. now rewrite Ho, Ho'.
Qed.

Lemma tracks_final_le (o o' : nat) (w w' : World) :
  tracks o o' w w' -> (o' <= 1)%nat.
Proof. intros (d & _ & B & <-). now apply bounded_from_final. Qed.

(** A cycle enters at most one position and appends at most one record. *)
Lemma cycle_run_entries {A} (w : World) (r : result A) :
  cycle_run w r ->
  exists d,
    trace (world_of r) = trace w ++ d /\ (entries d <= 1)%nat /\
    (trade_log (world_of r) = trade_log w \/
     exists logged rec,
       trade_log w = Holds logged /\
       trade_log (world_of r) = Holds (logged ++ [rec])).
Proof.
  intros [[L (q & T & Q)]|(w1 & ty & p & [L1 (q1 & T1 & Q1)] & H)].
  - exists q. split; [exact T|]. split; [|now left].
    rewrite (entries_quiet _ Q). lia.
  - set (en := EvTelegram (MsgEntry Chase ty p)) in *.
    assert (Hcalm : forall w', calm (emit en w1) w' ->
              exists d, trace w' = trace w ++ d /\ (entries d <= 1)%nat /\
                        trade_log w' = trade_log w).
    { intros w' [L2 (q2 & T2 & Q2)]. exists (q1 ++ [en] ++ q2). repeat split.
      - rewrite T2. cbn [emit trace]. rewrite T1. now rewrite <- !app_assoc.
      - rewrite !entries_app, (entries_quiet _ Q1), (entries_quiet _ Q2).
        cbn. lia.
      - rewrite L2. cbn [emit trade_log]. exact L1. }
    destruct r as [a w'|x w'|w']; cbn [position_run world_of] in *.
    + destruct H as (w2 & logged & rec & C & L2 & L' & T').
      destruct (Hcalm _ C) as (d & Td & Ed & Ld).
      exists (d ++ [EvTelegram (MsgStopHit ty (exit_price rec))]). repeat split.
      * now rewrite T', Td, app_assoc.
      * rewrite entries_app. cbn. lia.
      * right. exists logged, rec. split; [congruence | exact L'].
    + destruct (Hcalm _ H) as (d & Td & Ed & Ld). exists d. auto.
    + destruct (Hcalm _ H) as (d & Td & Ed & Ld). exists d. auto.
Qed.

(** A cycle that returns leaves no position open; one that does not return
    leaves at most one. *)
Lemma cycle_run_tracks {A} (w : World) (r : result A) :
  cycle_run w r ->
  match r with
  | Ret _ w' => tracks 0 0 w w'
  | _ => exists o', tracks 0 o' w (world_of r)
  end.
Proof.
  intros [C|(w1 & ty & p & C1 & H)].
  - destruct r; cbn [world_of] in *; [|exists 0%nat| exists 0%nat];
      (apply tracks_calm; [lia | exact C]).
  - set (en := EvTelegram (MsgEntry Chase ty p)) in *.
    assert (T1 : tracks 0 1 w (emit en w1)).
    { eapply tracks_trans; [apply tracks_calm; [lia | exact C1]|].
      apply (tracks_emit 0 en); cbn; lia. }
    destruct r as [a w'|x w'|w']; cbn [position_run world_of] in *.
    + destruct H as (w2 & logged & rec & C & L2 & L' & T').
      eapply tracks_trans; [exact T1|].
      eapply tracks_trans; [apply tracks_calm; [lia | exact C]|].
      exists [EvTelegram (MsgStopHit ty (exit_price rec))]. now repeat split.
    + exists 1%nat. eapply tracks_trans; [exact T1|].
      apply tracks_calm; [lia | exact H].
    + exists 1%nat. eapply tracks_trans; [exact T1|].
      apply tracks_calm; [lia | exact H].
Qed.

(** ** The scheduler loop *)

Lemma rollover_quiet (w : World) :
  exists q, trace (world_of (rollover w)) = trace w ++ q /\
            forallb quiet q = true.
Proof.
  unfold rollover, bind, now, get_start_time.
  destruct (start_time w + THIRTY_DAYS <=? clock w)%Z.
  - unfold generate_summary, bind, now, load_trade_log.
    destruct (trade_log w); cbn.
    + exists []. now rewrite app_nil_r.
    + eexists [_]. split; reflexivity.
  - exists []. cbn. now rewrite app_nil_r.
Qed.

Lemma main_body_step (fuel : nat) (w : World) :
  main_body fuel w =
  match rollover w with
  | Ret _ w1 =>
      match monitor_market fuel w1 with
      | Ret _ w2 => Ret tt (elapse COOLDOWN_PERIOD w2)
      | Raise x w2 => Raise x w2
      | Stuck w2 => Stuck w2
      end
  | Raise x w1 => Raise x w1
  | Stuck w1 => Stuck w1
  end.
Proof.
  unfold main_body. unfold bind at 1. destruct (rollover w); reflexivity.
Qed.

Lemma main_body_tracks (fuel : nat) (w : World) :
  match main_body fuel w with
  | Ret _ w' => tracks 0 0 w w'
  | r => exists o', tracks 0 o' w (world_of r)
  end.
Proof.
  rewrite main_body_step. destruct (rollover_quiet w) as (q & T & Q).
  assert (T0 : tracks 0 0 w (world_of (rollover w))).
  { eapply tracks_quiet; [lia | exact T | exact Q]. }
  destruct (rollover w) as [[] w1|x w1|w1]; cbn [world_of] in *;
    try (exists 0%nat; exact T0).
  pose proof (cycle_run_tracks _ _ (monitor_market_cycle fuel w1)) as H.
  destruct (monitor_market fuel w1) as [[] w2|x w2|w2]; cbn [world_of] in *.
  - eapply tracks_trans; [exact T0|]. eapply tracks_trans; [exact H|].
    apply tracks_calm; [lia | apply calm_elapse].
  - destruct H as (o' & H). exists o'. eapply tracks_trans; eassumption.
  - destruct H as (o' & H). exists o'. eapply tracks_trans; eassumption.
Qed.

Lemma main_iteration_step (fuel : nat) (w : World) :
  main_iteration fuel w =
  match main_body fuel w with
  | Raise (Exception text) w' =>
      Ret tt (elapse 10 (emit (EvTelegram (MsgCrashed text)) w'))
  | r => r
  end.
Proof.
  unfold main_iteration, try_except.
  destruct (main_body fuel w) as [a w'|[text|text] w'|w']; reflexivity.
Qed.

Lemma main_iteration_tracks (fuel : nat) (w : World) :
  match main_iteration fuel w with
  | Ret _ w' => tracks 0 0 w w'
  | r => exists o', tracks 0 o' w (world_of r)
  end.
Proof.
  rewrite main_iteration_step. pose proof (main_body_tracks fuel w) as H.
  destruct (main_body fuel w) as [a w'|[text|text] w'|w']; try exact H.
  destruct H as (o' & H). cbn [world_of] in H.
  pose proof (tracks_final_le _ _ _ _ H) as Ho.
  eapply tracks_trans; [exact H|].
  eapply tracks_trans;
    [apply (tracks_emit o' (EvTelegram (MsgCrashed text))); [exact Ho | cbn; lia]|].
  cbn. apply tracks_calm; [lia | apply calm_elapse].
Qed.

Lemma main_loop_tracks (iterations fuel : nat) (w : World) :
  exists o', tracks 0 o' w (world_of (main_loop iterations fuel w)).
Proof.
  revert w. induction iterations as [|n IH]; intro w.
  - exists 0%nat. apply tracks_calm; [lia | apply calm_refl].
  - cbn [main_loop]. unfold bind.
    pose proof (main_iteration_tracks fuel w) as H.
    destruct (main_iteration fuel w) as [[] w'|x w'|w']; try exact H.
    destruct (IH w') as (o' & H'). exists o'. eapply tracks_trans; eassumption.
Qed.

Lemma main_loop_no_exception (iterations fuel : nat) (w : World) :
  forall text w', main_loop iterations fuel w <> Raise (Exception text) w'.
Proof.
  revert w. induction iterations as [|n IH]; intros w text w'; [discriminate|].
  cbn [main_loop]. unfold bind. rewrite main_iteration_step.
  destruct (main_body fuel w) as [a w1|[t|t] w1|w1]; try discriminate; apply IH.
Qed.

(** ** Retries *)

Lemma retry_trace_S (call : event) (n : nat) :
  retry_trace call (S n) = [call; EvSleep 5] ++ retry_trace call n.
Proof. reflexivity. Qed.

Lemma fetch_candles_from_exhausted (texts : list string) :
  forall w rest,
    ohlcv_feed w = failures texts ++ rest ->
    fetch_candles_from (List.length texts) w =
    Ret [] (mkWorld rest (ticker_feed w)
              (clock w + 5 * Z.of_nat (List.length texts))%Z (start_time w)
              (trade_log w) (summary_file w)
              (trace w ++ retry_trace EvFetchOhlcv (List.length texts))).
Proof.
  induction texts as [|t ts IH]; intros [cf tf ck st tl sf tr] rest H;
    cbn [ohlcv_feed ticker_feed clock start_time trade_log summary_file trace] in *.
  - cbn in H. subst cf. cbn. now rewrite Z.add_0_r, app_nil_r.
  - cbn in H. subst cf. cbn [List.length fetch_candles_from].
    unfold bind at 1. unfold try_except, bind at 1, fetch_ohlcv. cbn [ohlcv_feed].
    cbn [ret]. unfold bind at 1. cbn [sleep elapse].
    cbn [ohlcv_feed ticker_feed clock start_time trade_log summary_file trace].
    erewrite (IH _ rest); [|reflexivity].
    cbn [elapse ohlcv_feed ticker_feed clock start_time trade_log summary_file trace].
    rewrite retry_trace_S, <- !app_assoc. do 2 f_equal. lia.
Qed.

Lemma fetch_candles_from_answered (texts : list string) :
  forall n w c rest,
    (List.length texts < n)%nat ->
    ohlcv_feed w = failures texts ++ inr c :: rest ->
    fetch_candles_from n w =
    Ret c (mkWorld rest (ticker_feed w)
             (clock w + 5 * Z.of_nat (List.length texts))%Z (start_time w)
             (trade_log w) (summary_file w)
             (trace w ++ retry_trace EvFetchOhlcv (List.length texts)
                ++ [EvFetchOhlcv])).
Proof.
  induction texts as [|t ts IH]; intros n [cf tf ck st tl sf tr] c rest Hn H;
    cbn [ohlcv_feed ticker_feed clock start_time trade_log summary_file trace] in *;
    (destruct n as [|n]; [cbn in Hn; lia|]).
  - cbn in H. subst cf. cbn. now rewrite Z.add_0_r.
  - cbn in H. subst cf. cbn [List.length fetch_candles_from].
    unfold bind at 1. unfold try_except, bind at 1, fetch_ohlcv. cbn [ohlcv_feed].
    cbn [ret]. unfold bind at 1. cbn [sleep elapse].
    cbn [ohlcv_feed ticker_feed clock start_time trade_log summary_file trace].
    erewrite (IH n _ c rest); [|cbn in Hn; lia|reflexivity].
    cbn [elapse ohlcv_feed ticker_feed clock start_time trade_log summary_file trace].
    rewrite retry_trace_S, <- !app_assoc. do 2 f_equal. lia.
Qed.

Lemma get_current_price_from_exhausted (texts : list string) :
  forall w rest,
    ticker_feed w = failures texts ++ rest ->
    get_current_price_from (List.length texts) w =
    Ret None (mkWorld (ohlcv_feed w) rest
                (clock w + 5 * Z.of_nat (List.length texts))%Z (start_time w)
                (trade_log w) (summary_file w)
                (trace w ++ retry_trace EvFetchTicker (List.length texts))).
Proof.
  induction texts as [|t ts IH]; intros [cf tf ck st tl sf tr] rest H;
    cbn [ohlcv_feed ticker_feed clock start_time trade_log summary_file trace] in *.
  - cbn in H. subst tf. cbn. now rewrite Z.add_0_r, app_nil_r.
  - cbn in H. subst tf. cbn [List.length get_current_price_from].
    unfold bind at 1. unfold try_except, bind at 1, fetch_ticker_last.
    cbn [ticker_feed]. cbn [ret]. unfold bind at 1. cbn [sleep elapse].
    cbn [ohlcv_feed ticker_feed clock start_time trade_log summary_file trace].
    erewrite (IH _ rest); [|reflexivity].
    cbn [elapse ohlcv_feed ticker_feed clock start_time trade_log summary_file trace].
    rewrite retry_trace_S, <- !app_assoc. do 2 f_equal. lia.
Qed.

Lemma get_current_price_from_answered (texts : list string) :
  forall n w p rest,
    (List.length texts < n)%nat ->
    ticker_feed w = failures texts ++ inr p :: rest ->
    get_current_price_from n w =
    Ret (Some p) (mkWorld (ohlcv_feed w) rest
                    (clock w + 5 * Z.of_nat (List.length texts))%Z (start_time w)
                    (trade_log w) (summary_file w)
                    (trace w ++ retry_trace EvFetchTicker (List.length texts)
                       ++ [EvFetchTicker])).
Proof.
  induction texts as [|t ts IH]; intros n [cf tf ck st tl sf tr] p rest Hn H;
    cbn [ohlcv_feed ticker_feed clock start_time trade_log summary_file trace] in *;
    (destruct n as [|n]; [cbn in Hn; lia|]).
  - cbn in H. subst tf. cbn. now rewrite Z.add_0_r.
  - cbn in H. subst tf. cbn [List.length get_current_price_from].
    unfold bind at 1. unfold try_except, bind at 1, fetch_ticker_last.
    cbn [ticker_feed]. cbn [ret]. unfold bind at 1. cbn [sleep elapse].
    cbn [ohlcv_feed ticker_feed clock start_time trade_log summary_file trace].
    erewrite (IH n _ p rest); [|cbn in Hn; lia|reflexivity].
    cbn [elapse ohlcv_feed ticker_feed clock start_time trade_log summary_file trace].
    rewrite retry_trace_S, <- !app_assoc. do 2 f_equal. lia.
Qed.

(** Each attempt takes one answer from the feed, and there are at most
    [n] attempts. *)
Lemma fetch_candles_from_attempts (n : nat) (w : World) :
  exists k, (k <= n)%nat /\
    ohlcv_feed (world_of (fetch_candles_from n w)) = skipn k (ohlcv_feed w).
Proof.
  revert w. induction n as [|n IH]; intro w; [now exists 0%nat|].
  cbn [fetch_candles_from]. unfold bind at 1, try_except, bind at 1, fetch_ohlcv.
  destruct (ohlcv_feed w) as [|[[t|t]|c] rest] eqn:E; cbn [ret world_of].
  - exists 0%nat. split; [lia | exact E].
  - unfold bind. cbn [sleep].
    match goal with |- context [fetch_candles_from n ?w1] =>
      destruct (IH w1) as (k & Hk & Hf) end.
    exists (S k). split; [lia|]. rewrite Hf. reflexivity.
  - exists 1%nat. split; [lia | reflexivity].
  - exists 1%nat. split; [lia | reflexivity].
Qed.

Lemma get_current_price_from_attempts (n : nat) (w : World) :
  exists k, (k <= n)%nat /\
    ticker_feed (world_of (get_current_price_from n w)) = skipn k (ticker_feed w).
Proof.
  revert w. induction n as [|n IH]; intro w; [now exists 0%nat|].
  cbn [get_current_price_from].
  unfold bind at 1, try_except, bind at 1, fetch_ticker_last.
  destruct (ticker_feed w) as [|[[t|t]|c] rest] eqn:E; cbn [ret world_of].
  - exists 0%nat. split; [lia | exact E].
  - unfold bind. cbn [sleep].
    match goal with |- context [get_current_price_from n ?w1] =>
      destruct (IH w1) as (k & Hk & Hf) end.
    exists (S k). split; [lia|]. rewrite Hf. reflexivity.
  - exists 1%nat. split; [lia | reflexivity].
  - exists 1%nat. split; [lia | reflexivity].
Qed.

(** ** Tightening *)

Lemma tighten_long_ge (e s p : Q) : s <= tighten LONG e s p.
Proof.
  unfold tighten.
  destruct (e * 1.01 <? p), (e * 1.02 <? p);
    repeat (eapply Qle_trans; [|apply py_max_ge_l]); apply Qle_refl.
Qed.

Lemma tighten_short_le (e s p : Q) : tighten SHORT e s p <= s.
Proof.
  unfold tighten.
  destruct (p <? e * 0.99), (p <? e * 0.98);
    repeat (eapply Qle_trans; [apply py_min_le_l|]); apply Qle_refl.
Qed.

Lemma stop_after_long_ge (e s : Q) (prices : list Q) :
  s <= stop_after LONG e s prices.
Proof.
  unfold stop_after. revert s. induction prices as [|p ps IH]; intro s; simpl.
  - apply Qle_refl.
  - eapply Qle_trans; [apply tighten_long_ge | apply IH].
Qed.

Lemma stop_after_short_le (e s : Q) (prices : list Q) :
  stop_after SHORT e s prices <= s.
Proof.
  unfold stop_after. revert s. induction prices as [|p ps IH]; intro s; simpl.
  - apply Qle_refl.
  - eapply Qle_trans; [apply IH | apply tighten_short_le].
Qed.

Lemma entry_branch_stop (high low : Q) (sig : option side) (p : Q)
    (k : entry_kind) (ty : side) (stop : Q) :
  entry_branch high low sig p = Some (k, ty, stop) ->
  stop = opposite_edge ty high low.
Proof.
  unfold entry_branch. destruct sig as [s|]; [|discriminate].
  repeat match goal with
         | |- context [if ?c then _ else _] => destruct c
         end; intro H; inversion H; reflexivity.
Qed.

Lemma on_price_enters (fuel : nat) (high low : Q) (sig sig' : option side)
    (p : Q) (w w1 : World) (k : entry_kind) (ty : side) (stop : Q) :
  update_signal high low sig p w = Ret sig' w1 ->
  entry_branch high low sig' p = Some (k, ty, stop) ->
  on_price fuel high low sig p w =
  (trailing_stop_loss fuel p stop ty ;; ret Break)
    (emit (EvTelegram (MsgEntry k ty p)) w1).
Proof.
  intros Hu Hb. unfold on_price. unfold bind at 1. rewrite Hu, Hb. reflexivity.
Qed.

(** ** More iterations do not change a run that is over *)

Lemma trailing_stop_loss_fuel (fuel fuel' : nat) (e s : Q) (ty : side)
    (w : World) :
  (fuel <= fuel')%nat ->
  finished (trailing_stop_loss fuel e s ty w) ->
  trailing_stop_loss fuel' e s ty w = trailing_stop_loss fuel e s ty w.
Proof.
  revert fuel' s w. induction fuel as [|fuel IH]; intros fuel' s w Hle Hf.
  - destruct Hf.
  - destruct fuel' as [|fuel']; [lia|].
    rewrite !trailing_stop_loss_step in *.
    destruct (get_current_price (elapse 10 w)) as [[p|] w1|x w1|w1];
      try reflexivity.
    + destruct (stop_hit ty p (tighten ty e s p)); [reflexivity|].
      apply IH; [lia | exact Hf].
    + apply IH; [lia | exact Hf].
Qed.

Lemma on_price_step (fuel : nat) (high low : Q) (sig : option side) (p : Q)
    (w : World) :
  on_price fuel high low sig p w =
  match update_signal high low sig p w with
  | Ret sig' w1 =>
      match entry_branch high low sig' p with
      | Some (k, ty, stop) =>
          match trailing_stop_loss fuel p stop ty
                  (emit (EvTelegram (MsgEntry k ty p)) w1) with
          | Ret _ w2 => Ret Break w2
          | Raise x w2 => Raise x w2
          | Stuck w2 => Stuck w2
          end
      | None => Ret (Continue sig') w1
      end
  | Raise x w1 => Raise x w1
  | Stuck w1 => Stuck w1
  end.
Proof.
  unfold on_price. unfold bind at 1.
  destruct (update_signal high low sig p w) as [sig' w1|x w1|w1];
    try reflexivity.
  destruct (entry_branch high low sig' p) as [[[k ty] stop]|]; reflexivity.
Qed.

Lemma monitor_market_step (fuel : nat) (w : World) :
  monitor_market fuel w =
  match fetch_candles w with
  | Ret candles w1 =>
      match get_high_low candles with
      | (Some high, Some low) =>
          monitor_loop fuel high low None
            (emit (EvTelegram (MsgMonitoring high low)) w1)
      | _ => Ret tt w1
      end
  | Raise x w1 => Raise x w1
  | Stuck w1 => Stuck w1
  end.
Proof.
  unfold monitor_market. unfold bind at 1.
  destruct (fetch_candles w) as [candles w1|x w1|w1]; try reflexivity.
  destruct (get_high_low candles) as [[high|] [low|]]; reflexivity.
Qed.

Lemma on_price_fuel (fuel fuel' : nat) (high low : Q) (sig : option side)
    (p : Q) (w : World) :
  (fuel <= fuel')%nat ->
  finished (on_price fuel high low sig p w) ->
  on_price fuel' high low sig p w = on_price fuel high low sig p w.
Proof.
  intros Hle. rewrite !on_price_step.
  destruct (update_signal high low sig p w) as [sig' w1|x w1|w1];
    try reflexivity.
  destruct (entry_branch high low sig' p) as [[[k ty] stop]|]; [|reflexivity].
  set (w2 := emit (EvTelegram (MsgEntry k ty p)) w1).
  intro Hf.
  rewrite (trailing_stop_loss_fuel fuel fuel' p stop ty w2 Hle); [reflexivity|].
  destruct (trailing_stop_loss fuel p stop ty w2); [exact I | exact I | exact Hf].
Qed.

Lemma monitor_iteration_fuel (fuel fuel' : nat) (high low : Q)
    (sig : option side) (w : World) :
  (fuel <= fuel')%nat ->
  finished (monitor_iteration fuel high low sig w) ->
  monitor_iteration fuel' high low sig w = monitor_iteration fuel high low sig w.
Proof.
  intros Hle. rewrite !monitor_iteration_step.
  destruct (get_current_price (elapse 10 w)) as [[p|] w1|x w1|w1];
    try reflexivity.
  now apply on_price_fuel.
Qed.

Lemma monitor_loop_fuel (fuel fuel' : nat) (high low : Q) (sig : option side)
    (w : World) :
  (fuel <= fuel')%nat ->
  finished (monitor_loop fuel high low sig w) ->
  monitor_loop fuel' high low sig w = monitor_loop fuel high low sig w.
Proof.
  revert fuel' sig w. induction fuel as [|fuel IH]; intros fuel' sig w Hle Hf.
  - destruct Hf.
  - destruct fuel' as [|fuel']; [lia|].
    cbn [monitor_loop] in *. unfold bind in *.
    rewrite (monitor_iteration_fuel fuel fuel' high low sig w ltac:(lia)).
    + destruct (monitor_iteration fuel high low sig w) as [[s'|] w1|x w1|w1];
        try reflexivity.
      apply IH; [lia | exact Hf].
    + destruct (monitor_iteration fuel high low sig w); [exact I | exact I | exact Hf].
Qed.

Lemma monitor_market_fuel (fuel fuel' : nat) (w : World) :
  (fuel <= fuel')%nat ->
  finished (monitor_market fuel w) ->
  monitor_market fuel' w = monitor_market fuel w.
Proof.
  intros Hle. rewrite !monitor_market_step.
  destruct (fetch_candles w) as [candles w1|x w1|w1]; try reflexivity.
  destruct (get_high_low candles) as [[high|] [low|]]; try reflexivity.
  now apply monitor_loop_fuel.
Qed.

(** ** Polls answered at the first attempt *)

Lemma poll_answered (w : World) (p : Q) (rest : list (exn + Q)) :
  ticker_feed w = inr p :: rest ->
  get_current_price (elapse 10 w) =
  Ret (Some p)
    (mkWorld (ohlcv_feed w) rest (clock w + 10)%Z (start_time w)
       (trade_log w) (summary_file w)
       (trace w ++ [EvSleep 10; EvFetchTicker])).
Proof.
  intro H. destruct w as [cf tf ck st tl sf tr]. cbn in H. subst tf.
  cbn. now rewrite <- app_assoc.
Qed.

Lemma poll_trace_S (n : nat) :
  poll_trace (S n) = [EvSleep 10; EvFetchTicker] ++ poll_trace n.
Proof. reflexivity. Qed.

(** While no price hits the stop the loop goes on, and the stop it carries
    is the stop tightened by the prices seen so far. *)
Lemma trailing_stop_loss_holds (prices : list Q) :
  forall ty e s fuel w rest,
    ticker_feed w = map inr prices ++ rest ->
    survives ty e s prices = true ->
    trailing_stop_loss (List.length prices + fuel) e s ty w =
    trailing_stop_loss fuel e (stop_after ty e s prices) ty
      (mkWorld (ohlcv_feed w) rest
         (clock w + 10 * Z.of_nat (List.length prices))%Z (start_time w)
         (trade_log w) (summary_file w)
         (trace w ++ poll_trace (List.length prices))).
Proof.
  induction prices as [|p ps IH]; intros ty e s fuel w rest Hf Hs.
  - destruct w as [cf tf ck st tl sf tr]. cbn in Hf. subst tf. cbn.
    now rewrite Z.add_0_r, app_nil_r.
  - cbn [survives] in Hs. apply andb_true_iff in Hs as [Hp Hs].
    apply negb_true_iff in Hp.
    cbn [List.length Nat.add]. rewrite trailing_stop_loss_step.
    rewrite (poll_answered w p (map inr ps ++ rest) Hf), Hp.
    erewrite IH; [|reflexivity|exact Hs].
    cbn [ohlcv_feed ticker_feed clock start_time trade_log summary_file trace].
    unfold stop_after. cbn [fold_left].
    rewrite poll_trace_S, <- !app_assoc. do 2 f_equal. lia.
Qed.

Lemma Qltb_not (x y : Q) : ~ x < y -> (x <? y) = false.
Proof.
  intro H. destruct (x <? y) eqn:E; [|reflexivity].
  apply Qltb_iff in E. contradiction.
Qed.

Lemma bind_ret_unit (m : M unit) (w : World) :
  match (m ;; ret Break) w with
  | Ret Break w' => Ret tt w'
  | Ret (Continue _) w' => Stuck w'
  | Raise x w' => Raise x w'
  | Stuck w' => Stuck w'
  end = m w.
Proof. unfold bind. destruct (m w) as [[] w'|x w'|w']; reflexivity. Qed.

(** One iteration of the monitoring loop, every case spelled out. *)
Lemma monitor_iteration_cases (fuel : nat) (high low : Q) (sig : option side)
    (w : World) :
  monitor_iteration fuel high low sig w =
  match get_current_price (elapse 10 w) with
  | Ret (Some p) w1 =>
      match update_signal high low sig p w1 with
      | Ret sig' w2 =>
          match entry_branch high low sig' p with
          | Some (k, ty, _) =>
              (trailing_stop_loss fuel p (opposite_edge ty high low) ty ;;
               ret Break)
                (emit (EvTelegram (MsgEntry k ty p)) w2)
          | None => Ret (Continue sig') w2
          end
      | Raise x w2 => Raise x w2
      | Stuck w2 => Stuck w2
      end
  | Ret None w1 => Ret (Continue sig) w1
  | Raise x w1 => Raise x w1
  | Stuck w1 => Stuck w1
  end.
Proof.
  rewrite monitor_iteration_step.
  destruct (get_current_price (elapse 10 w)) as [[p|] w1|x w1|w1];
    try reflexivity.
  unfold on_price. unfold bind at 1.
  destruct (update_signal high low sig p w1) as [sig' w2|x w2|w2];
    try reflexivity.
  destruct (entry_branch high low sig' p) as [[[k ty] stop]|] eqn:E;
    [|reflexivity].
  now rewrite (entry_branch_stop _ _ _ _ _ _ _ E).
Qed.

(** The loop from one of its iterations. *)
Lemma monitor_loop_step (fuel : nat) (high low : Q) (sig : option side)
    (w : World) :
  monitor_loop (S fuel) high low sig w =
  match monitor_iteration fuel high low sig w with
  | Ret (Continue sig') w' => monitor_loop fuel high low sig' w'
  | Ret Break w' => Ret tt w'
  | Raise x w' => Raise x w'
  | Stuck w' => Stuck w'
  end.
Proof.
  cbn [monitor_loop]. unfold bind.
  destruct (monitor_iteration fuel high low sig w) as [[s'|] w'|x w'|w'];
    reflexivity.
Qed.

Lemma monitor_loop_enters (fuel : nat) (high low : Q) (sig : option side)
    (w w3 : World) (p stop : Q) (ty : side) :
  monitor_iteration fuel high low sig w =
    (trailing_stop_loss fuel p stop ty ;; ret Break) w3 ->
  monitor_loop (S fuel) high low sig w = trailing_stop_loss fuel p stop ty w3.
Proof.
  intro H. rewrite monitor_loop_step, H. unfold bind.
  destruct (trailing_stop_loss fuel p stop ty w3) as [[] w'|x w'|w'];
    reflexivity.
Qed.

(** ** Claims about the trading loop *)

(** C2. Every call of [trailing_stop_loss] that the monitoring loop makes
    passes the opposite band edge as initial stop (low for LONG, high for
    SHORT).  In an iteration for a LONG position the stop becomes the max of
    the old stop and entry x 1.005 once the price exceeds entry x 1.01, then
    the max of that and entry x 1.01 once the price exceeds entry x 1.02, and
    is unchanged otherwise; it never decreases, in one iteration or over any
    sequence of prices.  The iteration exits exactly when the price is below
    the tightened stop; otherwise, and also when the price could not be
    fetched, the loop goes on, with the tightened stop or with the unchanged
    one.  SHORT mirrors this with entry x 0.99 / 0.995 and entry x 0.98 /
    0.99, min instead of max, a stop that never increases, and exit when the
    price is above the stop. *)
Theorem stop_loss_discipline :
  (forall fuel high low sig sig' p w w1 k ty stop,
      update_signal high low sig p w = Ret sig' w1 ->
      entry_branch high low sig' p = Some (k, ty, stop) ->
      stop = opposite_edge ty high low /\
      on_price fuel high low sig p w =
      (trailing_stop_loss fuel p (opposite_edge ty high low) ty ;; ret Break)
        (emit (EvTelegram (MsgEntry k ty p)) w1)) /\
  (forall fuel high low sig w,
      monitor_iteration fuel high low sig w =
      match get_current_price (elapse 10 w) with
      | Ret (Some p) w1 =>
          match update_signal high low sig p w1 with
          | Ret sig' w2 =>
              match entry_branch high low sig' p with
              | Some (k, ty, _) =>
                  (trailing_stop_loss fuel p (opposite_edge ty high low) ty ;;
                   ret Break)
                    (emit (EvTelegram (MsgEntry k ty p)) w2)
              | None => Ret (Continue sig') w2
              end
          | Raise x w2 => Raise x w2
          | Stuck w2 => Stuck w2
          end
      | Ret None w1 => Ret (Continue sig) w1
      | Raise x w1 => Raise x w1
      | Stuck w1 => Stuck w1
      end) /\
  (forall a b,
      (a <= py_max a b /\ b <= py_max a b /\
       (py_max a b = a \/ py_max a b = b)) /\
      (py_min a b <= a /\ py_min a b <= b /\
       (py_min a b = a \/ py_min a b = b))) /\
  (forall e s p,
      s <= tighten LONG e s p /\
      (e * 1.01 < p -> e * 1.005 <= tighten LONG e s p) /\
      (e * 1.02 < p -> e * 1.01 <= tighten LONG e s p) /\
      (~ e * 1.01 < p -> ~ e * 1.02 < p -> tighten LONG e s p = s) /\
      (tighten LONG e s p = s \/ tighten LONG e s p = e * 1.005 \/
       tighten LONG e s p = e * 1.01) /\
      (e * 1.01 < p -> ~ e * 1.02 < p ->
       tighten LONG e s p = py_max s (e * 1.005)) /\
      (e * 1.01 < p -> e * 1.02 < p ->
       tighten LONG e s p = py_max (py_max s (e * 1.005)) (e * 1.01)) /\
      (~ e * 1.01 < p -> e * 1.02 < p ->
       tighten LONG e s p = py_max s (e * 1.01))) /\
  (forall e s p,
      tighten SHORT e s p <= s /\
      (p < e * 0.99 -> tighten SHORT e s p <= e * 0.995) /\
      (p < e * 0.98 -> tighten SHORT e s p <= e * 0.99) /\
      (~ p < e * 0.99 -> ~ p < e * 0.98 -> tighten SHORT e s p = s) /\
      (tighten SHORT e s p = s \/ tighten SHORT e s p = e * 0.995 \/
       tighten SHORT e s p = e * 0.99) /\
      (p < e * 0.99 -> ~ p < e * 0.98 ->
       tighten SHORT e s p = py_min s (e * 0.995)) /\
      (p < e * 0.99 -> p < e * 0.98 ->
       tighten SHORT e s p = py_min (py_min s (e * 0.995)) (e * 0.99)) /\
      (~ p < e * 0.99 -> p < e * 0.98 ->
       tighten SHORT e s p = py_min s (e * 0.99))) /\
  (forall e s prices,
      s <= stop_after LONG e s prices /\ stop_after SHORT e s prices <= s) /\
  (forall p stop,
      (stop_hit LONG p stop = true <-> p < stop) /\
      (stop_hit SHORT p stop = true <-> stop < p)) /\
  (forall fuel e s ty w p w1,
      get_current_price (elapse 10 w) = Ret (Some p) w1 ->
      trailing_stop_loss (S fuel) e s ty w =
      if stop_hit ty p (tighten ty e s p)
      then (log_trade e p ty "Trailing Stop Loss Hit" ;;
            send_telegram_message (MsgStopHit ty p)) w1
      else trailing_stop_loss fuel e (tighten ty e s p) ty w1) /\
  (forall fuel e s ty w,
      trailing_stop_loss (S fuel) e s ty w =
      match get_current_price (elapse 10 w) with
      | Ret (Some p) w1 =>
          if stop_hit ty p (tighten ty e s p)
          then (log_trade e p ty "Trailing Stop Loss Hit" ;;
                send_telegram_message (MsgStopHit ty p)) w1
          else trailing_stop_loss fuel e (tighten ty e s p) ty w1
      | Ret None w1 => trailing_stop_loss fuel e s ty w1
      | Raise x w1 => Raise x w1
      | Stuck w1 => Stuck w1
      end) /\
  (forall prices ty e s fuel w rest,
      ticker_feed w = map inr prices ++ rest ->
      survives ty e s prices = true ->
      trailing_stop_loss (List.length prices + fuel) e s ty w =
      trailing_stop_loss fuel e (stop_after ty e s prices) ty
        (mkWorld (ohlcv_feed w) rest
           (clock w + 10 * Z.of_nat (List.length prices))%Z (start_time w)
           (trade_log w) (summary_file w)
           (trace w ++ poll_trace (List.length prices)))).
Proof.
  repeat apply conj.
  - intros fuel high low sig sig' p w w1 k ty stop Hu Hb.
    pose proof (entry_branch_stop _ _ _ _ _ _ _ Hb) as E. split; [exact E|].
    rewrite <- E. eapply on_price_enters; eassumption.
  - apply monitor_iteration_cases.
  - intros a b. repeat apply conj.
    + apply py_max_ge_l.
    + apply py_max_ge_r.
    + unfold py_max. destruct (a <? b); auto.
    + apply py_min_le_l.
    + apply py_min_le_r.
    + unfold py_min. destruct (b <? a); auto.
  - intros e s p. repeat apply conj.
    + apply tighten_long_ge.
    + intro H. apply Qltb_iff in H. unfold tighten. rewrite H.
      destruct (e * 1.02 <? p).
      * eapply Qle_trans; [apply py_max_ge_r | apply py_max_ge_l].
      * apply py_max_ge_r.
    + intro H. apply Qltb_iff in H. unfold tighten. rewrite H.
      apply py_max_ge_r.
    + intros H1 H2. unfold tighten.
      now rewrite (Qltb_not _ _ H1), (Qltb_not _ _ H2).
    + unfold tighten, py_max.
      repeat match goal with
             | |- context [if ?c then _ else _] => destruct c
             end; auto.
    + intros H1 H2. apply Qltb_iff in H1. unfold tighten.
      now rewrite H1, (Qltb_not _ _ H2).
    + intros H1 H2. apply Qltb_iff in H1, H2. unfold tighten.
      now rewrite H1, H2.
    + intros H1 H2. apply Qltb_iff in H2. unfold tighten.
      now rewrite (Qltb_not _ _ H1), H2.
  - intros e s p. repeat apply conj.
    + apply tighten_short_le.
    + intro H. apply Qltb_iff in H. unfold tighten. rewrite H.
      destruct (p <? e * 0.98).
      * eapply Qle_trans; [apply py_min_le_l | apply py_min_le_r].
      * apply py_min_le_r.
    + intro H. apply Qltb_iff in H. unfold tighten. rewrite H.
      apply py_min_le_r.
    + intros H1 H2. unfold tighten.
      now rewrite (Qltb_not _ _ H1), (Qltb_not _ _ H2).
    + unfold tighten, py_min.
      repeat match goal with
             | |- context [if ?c then _ else _] => destruct c
             end; auto.
    + intros H1 H2. apply Qltb_iff in H1. unfold tighten.
      now rewrite H1, (Qltb_not _ _ H2).
    + intros H1 H2. apply Qltb_iff in H1, H2. unfold tighten.
      now rewrite H1, H2.
    + intros H1 H2. apply Qltb_iff in H2. unfold tighten.
      now rewrite (Qltb_not _ _ H1), H2.
  - intros e s prices.
    split; [apply stop_after_long_ge | apply stop_after_short_le].
  - intros p stop. split; apply Qltb_iff.
  - intros fuel e s ty w p w1 H. rewrite trailing_stop_loss_step, H. reflexivity.
  - apply trailing_stop_loss_step.
  - intros prices ty e s fuel w rest Hf Hs. now apply trailing_stop_loss_holds.
Qed.

Lemma stop_loss_discipline_witness :
  on_price 2 110 100 None 112
    (emit (EvTelegram (MsgMonitoring 110 100)) runaway_market) =
  (trailing_stop_loss 2 112 100 LONG ;; ret Break)
    (emit (EvTelegram (MsgEntry Chase LONG 112))
       (emit (EvTelegram (MsgSignal LONG 110))
          (emit (EvTelegram (MsgMonitoring 110 100)) runaway_market))) /\
  100.5 <= tighten LONG 100 95 101.5 /\
  101 <= tighten LONG 100 95 102.5 /\
  tighten LONG 100 95 100.5 = 95 /\
  tighten LONG 100 95 101.5 = py_max 95 (100 * 1.005) /\
  tighten LONG 100 95 102.5 = py_max (py_max 95 (100 * 1.005)) (100 * 1.01) /\
  tighten LONG (-100) (-105) (-101.5) = py_max (-105) (-100 * 1.01) /\
  tighten SHORT 100 105 98.5 <= 99.5 /\
  tighten SHORT 100 105 97.5 <= 99 /\
  tighten SHORT 100 105 99.5 = 105 /\
  tighten SHORT 100 105 98.5 = py_min 105 (100 * 0.995) /\
  tighten SHORT 100 105 97.5 = py_min (py_min 105 (100 * 0.995)) (100 * 0.99) /\
  tighten SHORT (-100) (-95) (-98.5) = py_min (-95) (-100 * 0.99) /\
  trailing_stop_loss 1 112 100 LONG (market [inr 99]) =
  (log_trade 112 99 LONG "Trailing Stop Loss Hit" ;;
   send_telegram_message (MsgStopHit LONG 99))
    (mkWorld [inr [band_candle]] [] 10 0 (Holds []) []
             [EvSleep 10; EvFetchTicker]) /\
  trailing_stop_loss (2 + 1) 100 95 LONG (market [inr 101.5; inr 102.5; inr 99]) =
  trailing_stop_loss 1 100 (stop_after LONG 100 95 [101.5; 102.5]) LONG
    (mkWorld [inr [band_candle]] [inr 99] 20 0 (Holds []) [] (poll_trace 2)).
Proof.
  destruct stop_loss_discipline
    as (Henter & _ & _ & Hlong & Hshort & _ & _ & Hstep & _ & Hholds).
  repeat apply conj.
  - refine (proj2 (Henter 2%nat 110 100 None (Some LONG) 112 _ _ Chase LONG 100
                     eq_refl eq_refl)).
  - apply (proj1 (proj2 (Hlong 100 95 101.5))). reflexivity.
  - apply (proj1 (proj2 (proj2 (Hlong 100 95 102.5)))). reflexivity.
  - apply (proj1 (proj2 (proj2 (proj2 (Hlong 100 95 100.5))))); discriminate.
  - apply (proj1 (proj2 (proj2 (proj2 (proj2 (proj2 (Hlong 100 95 101.5)))))));
      [reflexivity | discriminate].
  - apply (proj1 (proj2 (proj2 (proj2 (proj2 (proj2 (proj2
             (Hlong 100 95 102.5)))))))); reflexivity.
  - apply (proj2 (proj2 (proj2 (proj2 (proj2 (proj2 (proj2
             (Hlong (-100) (-105) (-101.5))))))))); [discriminate | reflexivity].
  - apply (proj1 (proj2 (Hshort 100 105 98.5))). reflexivity.
  - apply (proj1 (proj2 (proj2 (Hshort 100 105 97.5)))). reflexivity.
  - apply (proj1 (proj2 (proj2 (proj2 (Hshort 100 105 99.5))))); discriminate.
  - apply (proj1 (proj2 (proj2 (proj2 (proj2 (proj2 (Hshort 100 105 98.5)))))));
      [reflexivity | discriminate].
  - apply (proj1 (proj2 (proj2 (proj2 (proj2 (proj2 (proj2
             (Hshort 100 105 97.5)))))))); reflexivity.
  - apply (proj2 (proj2 (proj2 (proj2 (proj2 (proj2 (proj2
             (Hshort (-100) (-95) (-98.5))))))))); [discriminate | reflexivity].
  - apply (Hstep 0%nat 112 100 LONG (market [inr 99]) 99). reflexivity.
  - apply (Hholds [101.5; 102.5] LONG 100 95 1%nat
             (market [inr 101.5; inr 102.5; inr 99]) [inr 99]); reflexivity.
Defined.

(** C9. When the price polled by an iteration that starts without a signal
    is above [high], the iteration sends the LONG signal and, in the same
    iteration and at the same price, enters the position (a chase entry with
    stop [low]): the loop ends with the run of that position.  A polled price
    below [low] does the same for SHORT with stop [high].  A price inside
    the band, or a failed poll, leaves the loop without a signal.  So an
    iteration that starts without a signal and ends in [continue] still has
    none, and no later tick starts with one. *)
Theorem breakout_enters_on_signal_tick :
  (forall fuel high low p w,
      high < p ->
      on_price fuel high low None p w =
      (trailing_stop_loss fuel p low LONG ;; ret Break)
        (emit (EvTelegram (MsgEntry Chase LONG p))
           (emit (EvTelegram (MsgSignal LONG high)) w))) /\
  (forall fuel high low p w,
      ~ high < p -> p < low ->
      on_price fuel high low None p w =
      (trailing_stop_loss fuel p high SHORT ;; ret Break)
        (emit (EvTelegram (MsgEntry Chase SHORT p))
           (emit (EvTelegram (MsgSignal SHORT low)) w))) /\
  (forall fuel high low w s' w',
      monitor_iteration fuel high low None w = Ret (Continue s') w' ->
      s' = None) /\
  (forall fuel high low w p w1,
      get_current_price (elapse 10 w) = Ret (Some p) w1 ->
      high < p ->
      monitor_iteration fuel high low None w =
      (trailing_stop_loss fuel p low LONG ;; ret Break)
        (emit (EvTelegram (MsgEntry Chase LONG p))
           (emit (EvTelegram (MsgSignal LONG high)) w1)) /\
      monitor_loop (S fuel) high low None w =
      trailing_stop_loss fuel p low LONG
        (emit (EvTelegram (MsgEntry Chase LONG p))
           (emit (EvTelegram (MsgSignal LONG high)) w1))) /\
  (forall fuel high low w p w1,
      get_current_price (elapse 10 w) = Ret (Some p) w1 ->
      ~ high < p -> p < low ->
      monitor_iteration fuel high low None w =
      (trailing_stop_loss fuel p high SHORT ;; ret Break)
        (emit (EvTelegram (MsgEntry Chase SHORT p))
           (emit (EvTelegram (MsgSignal SHORT low)) w1)) /\
      monitor_loop (S fuel) high low None w =
      trailing_stop_loss fuel p high SHORT
        (emit (EvTelegram (MsgEntry Chase SHORT p))
           (emit (EvTelegram (MsgSignal SHORT low)) w1))) /\
  (forall fuel high low w p w1,
      get_current_price (elapse 10 w) = Ret (Some p) w1 ->
      ~ high < p -> ~ p < low ->
      monitor_iteration fuel high low None w = Ret (Continue None) w1 /\
      monitor_loop (S fuel) high low None w = monitor_loop fuel high low None w1) /\
  (forall fuel high low w w1,
      get_current_price (elapse 10 w) = Ret None w1 ->
      monitor_iteration fuel high low None w = Ret (Continue None) w1 /\
      monitor_loop (S fuel) high low None w = monitor_loop fuel high low None w1) /\
  (forall fuel w candles w0 high low p w1,
      fetch_candles w = Ret candles w0 ->
      get_high_low candles = (Some high, Some low) ->
      get_current_price
        (elapse 10 (emit (EvTelegram (MsgMonitoring high low)) w0)) =
        Ret (Some p) w1 ->
      (high < p ->
       monitor_market (S fuel) w =
       trailing_stop_loss fuel p low LONG
         (emit (EvTelegram (MsgEntry Chase LONG p))
            (emit (EvTelegram (MsgSignal LONG high)) w1))) /\
      (~ high < p -> p < low ->
       monitor_market (S fuel) w =
       trailing_stop_loss fuel p high SHORT
         (emit (EvTelegram (MsgEntry Chase SHORT p))
            (emit (EvTelegram (MsgSignal SHORT low)) w1)))).
Proof.
  assert (Hlong : forall fuel high low w p w1,
             get_current_price (elapse 10 w) = Ret (Some p) w1 ->
             high < p ->
             monitor_iteration fuel high low None w =
             (trailing_stop_loss fuel p low LONG ;; ret Break)
               (emit (EvTelegram (MsgEntry Chase LONG p))
                  (emit (EvTelegram (MsgSignal LONG high)) w1))).
  { intros fuel high low w p w1 Hp H. rewrite monitor_iteration_step, Hp.
    apply on_price_breakout_long, Qltb_iff, H. }
  assert (Hshort : forall fuel high low w p w1,
             get_current_price (elapse 10 w) = Ret (Some p) w1 ->
             ~ high < p -> p < low ->
             monitor_iteration fuel high low None w =
             (trailing_stop_loss fuel p high SHORT ;; ret Break)
               (emit (EvTelegram (MsgEntry Chase SHORT p))
                  (emit (EvTelegram (MsgSignal SHORT low)) w1))).
  { intros fuel high low w p w1 Hp H H'. rewrite monitor_iteration_step, Hp.
    apply on_price_breakout_short; [now apply Qltb_not | apply Qltb_iff, H']. }
  repeat apply conj.
  - intros fuel high low p w H. apply on_price_breakout_long, Qltb_iff, H.
  - intros fuel high low p w H H'. apply on_price_breakout_short.
    + now apply Qltb_not.
    + apply Qltb_iff, H'.
  - intros fuel high low w s' w' H.
    pose proof (monitor_iteration_cycle fuel high low w) as C.
    rewrite H in C. apply C.
  - intros fuel high low w p w1 Hp H.
    split; [now apply Hlong|]. apply monitor_loop_enters. now apply Hlong.
  - intros fuel high low w p w1 Hp H H'.
    split; [now apply Hshort|]. apply monitor_loop_enters. now apply Hshort.
  - intros fuel high low w p w1 Hp H H'.
    assert (E : monitor_iteration fuel high low None w = Ret (Continue None) w1).
    { rewrite monitor_iteration_step, Hp.
      apply on_price_inside; now apply Qltb_not. }
    split; [exact E|]. now rewrite monitor_loop_step, E.
  - intros fuel high low w w1 Hp.
    assert (E : monitor_iteration fuel high low None w = Ret (Continue None) w1).
    { now rewrite monitor_iteration_step, Hp. }
    split; [exact E|]. now rewrite monitor_loop_step, E.
  - intros fuel w candles w0 high low p w1 Hc Hb Hp. split.
    + intro H. rewrite monitor_market_step, Hc, Hb.
      apply monitor_loop_enters. now apply Hlong.
    + intros H H'. rewrite monitor_market_step, Hc, Hb.
      apply monitor_loop_enters. now apply Hshort.
Qed.

Lemma breakout_enters_on_signal_tick_witness :
  (110 < 111 /\
   on_price 2 110 100 None 111 pullback_market =
   (trailing_stop_loss 2 111 100 LONG ;; ret Break)
     (emit (EvTelegram (MsgEntry Chase LONG 111))
        (emit (EvTelegram (MsgSignal LONG 110)) pullback_market))) /\
  (~ 110 < 99 /\ 99 < 100 /\
   on_price 2 110 100 None 99 pullback_market =
   (trailing_stop_loss 2 99 110 SHORT ;; ret Break)
     (emit (EvTelegram (MsgEntry Chase SHORT 99))
        (emit (EvTelegram (MsgSignal SHORT 100)) pullback_market))) /\
  (monitor_iteration 2 110 100 None (market [inr 105]) =
   Ret (Continue None)
     (mkWorld [inr [band_candle]] [] 10 0 (Holds []) []
              [EvSleep 10; EvFetchTicker]) /\
   @None side = None) /\
  monitor_loop 3 110 100 None pullback_market =
  trailing_stop_loss 2 111 100 LONG
    (emit (EvTelegram (MsgEntry Chase LONG 111))
       (emit (EvTelegram (MsgSignal LONG 110))
          (mkWorld [inr [band_candle]] [inr 105; inr 99] 10 0 (Holds []) []
                   [EvSleep 10; EvFetchTicker]))) /\
  monitor_loop 3 110 100 None (market [inr 99; inr 120]) =
  trailing_stop_loss 2 99 110 SHORT
    (emit (EvTelegram (MsgEntry Chase SHORT 99))
       (emit (EvTelegram (MsgSignal SHORT 100))
          (mkWorld [inr [band_candle]] [inr 120] 10 0 (Holds []) []
                   [EvSleep 10; EvFetchTicker]))) /\
  monitor_loop 3 110 100 None (market [inr 105; inr 111]) =
  monitor_loop 2 110 100 None
    (mkWorld [inr [band_candle]] [inr 111] 10 0 (Holds []) []
             [EvSleep 10; EvFetchTicker]) /\
  monitor_iteration 2 110 100 None (outage (market [])) =
  Ret (Continue None)
    (mkWorld (failures ["timeout"; "timeout"; "timeout"]%string
                ++ [inr [band_candle]]) []
       25 0 (Holds []) [] (EvSleep 10 :: retry_trace EvFetchTicker 3)) /\
  monitor_market 3 pullback_market =
  trailing_stop_loss 2 111 100 LONG
    (emit (EvTelegram (MsgEntry Chase LONG 111))
       (emit (EvTelegram (MsgSignal LONG 110))
          (mkWorld [] [inr 105; inr 99] 10 0 (Holds []) []
                   [EvFetchOhlcv; EvTelegram (MsgMonitoring 110 100);
                    EvSleep 10; EvFetchTicker]))).
Proof.
  destruct breakout_enters_on_signal_tick
    as (Hlong & Hshort & Hkeep & Hl & Hs & Hin & Hnone & Hmm).
  repeat apply conj.
  - reflexivity.
  - apply Hlong. reflexivity.
  - discriminate.
  - reflexivity.
  - apply Hshort; [discriminate | reflexivity].
  - reflexivity.
  - apply (Hkeep 2%nat 110 100 (market [inr 105]) None
             (mkWorld [inr [band_candle]] [] 10 0 (Holds []) []
                      [EvSleep 10; EvFetchTicker])).
    reflexivity.
  - apply (Hl 2%nat 110 100 pullback_market 111); reflexivity.
  - apply (Hs 2%nat 110 100 (market [inr 99; inr 120]) 99);
      [reflexivity | discriminate | reflexivity].
  - apply (Hin 2%nat 110 100 (market [inr 105; inr 111]) 105);
      [reflexivity | discriminate | discriminate].
  - apply (Hnone 2%nat 110 100 (outage (market []))). reflexivity.
  - apply (proj1 (Hmm 2%nat pullback_market [band_candle]
                    (mkWorld [] [inr 111; inr 105; inr 99] 0 0 (Holds []) []
                             [EvFetchOhlcv])
                    110 100 111
                    (mkWorld [] [inr 105; inr 99] 10 0 (Holds []) []
                             [EvFetchOhlcv; EvTelegram (MsgMonitoring 110 100);
                              EvSleep 10; EvFetchTicker])
                    eq_refl eq_refl eq_refl)).
    reflexivity.
Defined.

(** C7. An exchange call is attempted at most three times, one answer of the
    feed per attempt.  An answer after fewer than three failures is
    returned, with a 5-second sleep after each failed attempt; three
    failures in a row give the empty list (candles) or [None] (price).  When
    the candle fetch returns no candles, [monitor_market] returns at once in
    the world the fetch left: no message, no position, no trade record.  When
    the price fetch of a monitoring iteration returns [None], the iteration
    ends in [continue] with the signal it started with, and the loop goes on
    from there. *)
Theorem fetch_failures_skip :
  (forall texts w rest,
      List.length texts = 3%nat ->
      ohlcv_feed w = failures texts ++ rest ->
      fetch_candles w =
      Ret [] (mkWorld rest (ticker_feed w) (clock w + 15)%Z (start_time w)
                (trade_log w) (summary_file w)
                (trace w ++ retry_trace EvFetchOhlcv 3))) /\
  (forall texts w c rest,
      (List.length texts < 3)%nat ->
      ohlcv_feed w = failures texts ++ inr c :: rest ->
      fetch_candles w =
      Ret c (mkWorld rest (ticker_feed w)
               (clock w + 5 * Z.of_nat (List.length texts))%Z (start_time w)
               (trade_log w) (summary_file w)
               (trace w ++ retry_trace EvFetchOhlcv (List.length texts)
                  ++ [EvFetchOhlcv]))) /\
  (forall texts w rest,
      List.length texts = 3%nat ->
      ticker_feed w = failures texts ++ rest ->
      get_current_price w =
      Ret None (mkWorld (ohlcv_feed w) rest (clock w + 15)%Z (start_time w)
                  (trade_log w) (summary_file w)
                  (trace w ++ retry_trace EvFetchTicker 3))) /\
  (forall texts w p rest,
      (List.length texts < 3)%nat ->
      ticker_feed w = failures texts ++ inr p :: rest ->
      get_current_price w =
      Ret (Some p) (mkWorld (ohlcv_feed w) rest
                      (clock w + 5 * Z.of_nat (List.length texts))%Z
                      (start_time w) (trade_log w) (summary_file w)
                      (trace w ++ retry_trace EvFetchTicker (List.length texts)
                         ++ [EvFetchTicker]))) /\
  (forall w,
      (exists k, (k <= 3)%nat /\
         ohlcv_feed (world_of (fetch_candles w)) = skipn k (ohlcv_feed w)) /\
      (exists k, (k <= 3)%nat /\
         ticker_feed (world_of (get_current_price w)) = skipn k (ticker_feed w))) /\
  (forall fuel w w',
      fetch_candles w = Ret [] w' -> monitor_market fuel w = Ret tt w') /\
  (forall fuel high low sig w w',
      get_current_price (elapse 10 w) = Ret None w' ->
      monitor_iteration fuel high low sig w = Ret (Continue sig) w' /\
      monitor_loop (S fuel) high low sig w = monitor_loop fuel high low sig w').
Proof.
  repeat apply conj.
  - intros texts w rest Hlen H. unfold fetch_candles. rewrite <- Hlen.
    rewrite (fetch_candles_from_exhausted texts w rest H), Hlen. reflexivity.
  - intros texts w c rest Hlen H. now apply fetch_candles_from_answered.
  - intros texts w rest Hlen H. unfold get_current_price. rewrite <- Hlen.
    rewrite (get_current_price_from_exhausted texts w rest H), Hlen. reflexivity.
  - intros texts w p rest Hlen H. now apply get_current_price_from_answered.
  - intro w. split;
      [apply fetch_candles_from_attempts | apply get_current_price_from_attempts].
  - intros fuel w w' H. unfold monitor_market, bind. rewrite H. reflexivity.
  - intros fuel high low sig w w' H.
    assert (E : monitor_iteration fuel high low sig w = Ret (Continue sig) w').
    { rewrite monitor_iteration_step, H. reflexivity. }
    split; [exact E|]. cbn [monitor_loop]. unfold bind. rewrite E. reflexivity.
Qed.

Lemma fetch_failures_skip_witness :
  fetch_candles (outage (market [])) =
  Ret [] (mkWorld [inr [band_candle]] (failures ["timeout"; "timeout"; "timeout"]%string)
            15 0 (Holds []) [] (retry_trace EvFetchOhlcv 3)) /\
  fetch_candles (market []) =
  Ret [band_candle] (mkWorld [] [] 0 0 (Holds []) [] [EvFetchOhlcv]) /\
  get_current_price (outage (market [])) =
  Ret None (mkWorld (failures ["timeout"; "timeout"; "timeout"]%string
                       ++ [inr [band_candle]]) []
              15 0 (Holds []) [] (retry_trace EvFetchTicker 3)) /\
  get_current_price (market [inl (Exception "timeout"); inr 105]) =
  Ret (Some 105) (mkWorld [inr [band_candle]] [] 5 0 (Holds []) []
                    [EvFetchTicker; EvSleep 5; EvFetchTicker]) /\
  monitor_market 5 (outage (market [])) =
  Ret tt (mkWorld [inr [band_candle]] (failures ["timeout"; "timeout"; "timeout"]%string)
            15 0 (Holds []) [] (retry_trace EvFetchOhlcv 3)) /\
  monitor_iteration 5 110 100 (Some LONG) (outage (market [])) =
  Ret (Continue (Some LONG))
    (mkWorld (failures ["timeout"; "timeout"; "timeout"]%string
                ++ [inr [band_candle]]) []
       25 0 (Holds []) [] (EvSleep 10 :: retry_trace EvFetchTicker 3)).
Proof.
  destruct fetch_failures_skip as (Hc3 & Hc & Hp3 & Hp & _ & Hskip & Htick).
  repeat apply conj.
  - apply (Hc3 ["timeout"; "timeout"; "timeout"]%string (outage (market [])));
      reflexivity.
  - apply (Hc [] (market []) [band_candle] []); [cbn; lia | reflexivity].
  - apply (Hp3 ["timeout"; "timeout"; "timeout"]%string (outage (market [])));
      reflexivity.
  - apply (Hp ["timeout"]%string
              (market [inl (Exception "timeout"); inr 105]) 105 []);
      [cbn; lia | reflexivity].
  - apply Hskip. reflexivity.
  - apply Htick. reflexivity.
Defined.

(** C8. A call of [monitor_market] adds to the trace at most one entry
    message, and leaves the trade log as it was or with exactly one record
    appended.  Along any run of [main], at every point of the trace at most
    one position is open. *)
Theorem one_position_at_a_time :
  (forall fuel w,
      exists d,
        trace (world_of (monitor_market fuel w)) = trace w ++ d /\
        (entries d <= 1)%nat /\
        (trade_log (world_of (monitor_market fuel w)) = trade_log w \/
         exists logged rec,
           trade_log w = Holds logged /\
           trade_log (world_of (monitor_market fuel w)) = Holds (logged ++ [rec]))) /\
  (forall iterations fuel w,
      exists d,
        trace (world_of (main iterations fuel w)) = trace w ++ d /\
        at_most_one_open d).
Proof.
  split.
  - intros fuel w. apply cycle_run_entries, monitor_market_cycle.
  - intros iterations fuel w. unfold main, bind. cbn [send_telegram_message].
    destruct (main_loop_tracks iterations fuel (emit (EvTelegram MsgStarting) w))
      as (o' & d & T & B & _).
    exists (EvTelegram MsgStarting :: d). split.
    + rewrite T. cbn [emit trace]. now rewrite <- app_assoc.
    + apply bounded_from_sound. cbn. exact B.
Qed.

(** C6. A failure that leaves the [try] block of an iteration, whether it
    comes out of the monthly summary or out of [monitor_market], is caught by
    the iteration: the crash message carrying the error text is sent, the
    process sleeps 10 seconds, and the loop goes on with its next iteration
    from there.  No run of the loop, and no run of [main], ends by raising
    such a failure.  (Failures are instances of [Exception]; in the model
    the cooldown sleep itself raises nothing.) *)
Theorem main_survives_exceptions :
  (forall fuel w text w',
      main_body fuel w = Raise (Exception text) w' ->
      main_iteration fuel w =
        Ret tt (elapse 10 (emit (EvTelegram (MsgCrashed text)) w')) /\
      forall n,
        main_loop (S n) fuel w =
        main_loop n fuel (elapse 10 (emit (EvTelegram (MsgCrashed text)) w'))) /\
  (forall fuel w text w',
      rollover w = Raise (Exception text) w' ->
      main_body fuel w = Raise (Exception text) w' /\
      main_iteration fuel w =
        Ret tt (elapse 10 (emit (EvTelegram (MsgCrashed text)) w'))) /\
  (forall fuel w w1 text w',
      rollover w = Ret tt w1 ->
      monitor_market fuel w1 = Raise (Exception text) w' ->
      main_body fuel w = Raise (Exception text) w' /\
      main_iteration fuel w =
        Ret tt (elapse 10 (emit (EvTelegram (MsgCrashed text)) w'))) /\
  (forall n fuel w text w',
      main_loop n fuel w <> Raise (Exception text) w' /\
      main n fuel w <> Raise (Exception text) w').
Proof.
  repeat apply conj.
  - intros fuel w text w' H.
    assert (E : main_iteration fuel w =
                Ret tt (elapse 10 (emit (EvTelegram (MsgCrashed text)) w'))).
    { rewrite main_iteration_step, H. reflexivity. }
    split; [exact E|].
    intro n. cbn [main_loop]. unfold bind. rewrite E. reflexivity.
  - intros fuel w text w' Hr.
    assert (B : main_body fuel w = Raise (Exception text) w').
    { rewrite main_body_step, Hr. reflexivity. }
    split; [exact B|]. rewrite main_iteration_step, B. reflexivity.
  - intros fuel w w1 text w' Hr Hm.
    assert (B : main_body fuel w = Raise (Exception text) w').
    { rewrite main_body_step, Hr, Hm. reflexivity. }
    split; [exact B|]. rewrite main_iteration_step, B. reflexivity.
  - intros n fuel w text w'. split; [apply main_loop_no_exception|].
    unfold main, bind. cbn [send_telegram_message].
    apply main_loop_no_exception.
Qed.

Lemma main_survives_exceptions_witness :
  main_body 3 broken_log_market =
    Raise (Exception "Expecting value: line 1 column 1 (char 0)")
          broken_log_market /\
  main_iteration 3 broken_log_market =
    Ret tt (elapse 10
              (emit (EvTelegram
                       (MsgCrashed "Expecting value: line 1 column 1 (char 0)"))
                    broken_log_market)) /\
  main_loop 2 3 broken_log_market =
    main_loop 1 3
      (elapse 10
         (emit (EvTelegram
                  (MsgCrashed "Expecting value: line 1 column 1 (char 0)"))
               broken_log_market)) /\
  rollover broken_log_market =
    Raise (Exception "Expecting value: line 1 column 1 (char 0)")
          broken_log_market /\
  main_iteration 3 lost_log_market =
    Ret tt (elapse 10
              (emit (EvTelegram
                       (MsgCrashed "Expecting value: line 1 column 1 (char 0)"))
                    (mkWorld [] [] 20 0
                       (Unreadable "Expecting value: line 1 column 1 (char 0)") []
                       [EvFetchOhlcv; EvTelegram (MsgMonitoring 110 100);
                        EvSleep 10; EvFetchTicker;
                        EvTelegram (MsgSignal LONG 110);
                        EvTelegram (MsgEntry Chase LONG 111);
                        EvSleep 10; EvFetchTicker]))).
Proof.
  destruct main_survives_exceptions as (Hbody & Hroll & Hmon & _).
  split; [reflexivity|].
  destruct (Hbody 3%nat broken_log_market
              "Expecting value: line 1 column 1 (char 0)"%string
              broken_log_market eq_refl) as [Hiter Hnext].
  split; [exact Hiter|]. split; [exact (Hnext 1%nat)|].
  split; [reflexivity|].
  apply (Hmon 3%nat lost_log_market lost_log_market); reflexivity.
Defined.

(** C1, on the code.  In the band 100..110 with prices 111, 105, 99 the
    position is entered at 111 as a chase entry on the tick of the signal;
    105 is seen by the trailing stop, not by the entry logic, and no
    retracement entry is made.  With prices 112, 99 the entry is a chase
    entry at 112.  No call of [monitor_market] ever sends a retracement
    entry message. *)
Theorem pullback_is_chased :
  forall extra,
  monitor_market (3 + extra) pullback_market =
    Ret tt (mkWorld [] [] 30 0
              (Holds [mkTrade 111 99 LONG (-1200 # 10000) 30
                              "Trailing Stop Loss Hit"])
              []
              [EvFetchOhlcv; EvTelegram (MsgMonitoring 110 100);
               EvSleep 10; EvFetchTicker;
               EvTelegram (MsgSignal LONG 110);
               EvTelegram (MsgEntry Chase LONG 111);
               EvSleep 10; EvFetchTicker;
               EvSleep 10; EvFetchTicker;
               EvTelegram (MsgStopHit LONG 99)]) /\
  monitor_market (2 + extra) runaway_market =
    Ret tt (mkWorld [] [] 20 0
              (Holds [mkTrade 112 99 LONG (-1300 # 10000) 20
                              "Trailing Stop Loss Hit"])
              []
              [EvFetchOhlcv; EvTelegram (MsgMonitoring 110 100);
               EvSleep 10; EvFetchTicker;
               EvTelegram (MsgSignal LONG 110);
               EvTelegram (MsgEntry Chase LONG 112);
               EvSleep 10; EvFetchTicker;
               EvTelegram (MsgStopHit LONG 99)]) /\
  (forall fuel w,
      exists d,
        trace (world_of (monitor_market fuel w)) = trace w ++ d /\
        existsb is_retracement d = false).
Proof.
  intro extra.
  split; [now rewrite (monitor_market_fuel 3 (3 + extra)) by (exact I || lia)|].
  split; [now rewrite (monitor_market_fuel 2 (2 + extra)) by (exact I || lia)|].
  intros fuel w.
  assert (Hq : forall q, forallb quiet q = true -> existsb is_retracement q = false).
  { induction q as [|e q IH]; simpl; [reflexivity|]. intro H.
    apply andb_true_iff in H as [He Hq]. rewrite (IH Hq), orb_false_r.
    destruct e as [| | |[]]; try reflexivity; discriminate. }
  destruct (monitor_market_cycle fuel w)
    as [[_ (q & T & Q)]|(w1 & ty & p & [_ (q1 & T1 & Q1)] & H)].
  - exists q. split; [exact T | now apply Hq].
  - set (en := EvTelegram (MsgEntry Chase ty p)) in *.
    assert (Hcalm : forall w', calm (emit en w1) w' ->
              exists d, trace w' = trace w ++ d /\
                        existsb is_retracement d = false).
    { intros w' [_ (q2 & T2 & Q2)]. exists (q1 ++ [en] ++ q2). split.
      - rewrite T2. cbn [emit trace]. rewrite T1. now rewrite <- !app_assoc.
      - rewrite !existsb_app, (Hq _ Q1), (Hq _ Q2). reflexivity. }
    destruct (monitor_market fuel w) as [a w'|x w'|w'];
      cbn [position_run world_of] in *; try (apply Hcalm; exact H).
    destruct H as (w2 & logged & rec & C & _ & _ & T').
    destruct (Hcalm _ C) as (d & Td & Ed).
    exists (d ++ [EvTelegram (MsgStopHit ty (exit_price rec))]). split.
    + now rewrite T', Td, app_assoc.
    + rewrite existsb_app, Ed. reflexivity.
Qed.

(** C3 as stated fails: a LONG trade from 100 to 100.001 moves
    0.001 x 0.01 = 0.00001, and the record holds 0. *)
Lemma recorded_profit_not_exact :
  exists r w',
    log_trade 100 100.001 LONG "Trailing Stop Loss Hit" (market []) = Ret tt w' /\
    trade_log w' = Holds [r] /\
    ~ profit_loss r == (100.001 - 100) * TRADE_AMOUNT.
Proof.
  eexists. eexists. rewrite (log_trade_run (market []) [] _ _ _ _ eq_refl).
  split; [reflexivity|]. split; [reflexivity|]. discriminate.
Qed.

Lemma recorded_profit_is_rounded_move_witness :
  exists r w',
    log_trade 111 99 LONG "Trailing Stop Loss Hit" (market []) = Ret tt w' /\
    trade_log w' = Holds ([] ++ [r]) /\
    entry_price r = 111 /\ exit_price r = 99 /\ trade_type r = LONG /\
    profit_loss r = -1200 # 10000 /\
    (forall r2 w2,
        log_trade 111 99 SHORT "Trailing Stop Loss Hit" (market []) = Ret tt w2 ->
        trade_log w2 = Holds ([] ++ [r2]) ->
        profit_loss r2 = - profit_loss r).
Proof.
  destruct (recorded_profit_is_rounded_move (market []) [] 111 99 LONG
              "Trailing Stop Loss Hit" eq_refl)
    as (r & w' & R & L & E1 & E2 & E3 & _ & [_ Hexact] & Hother & _).
  exists r, w'. repeat split; try assumption.
  apply Hexact. reflexivity.
Defined.

Lemma recorded_profit_has_four_decimals_witness :
  exists r w',
    log_trade 100 100.001 LONG "Trailing Stop Loss Hit" (market []) = Ret tt w' /\
    trade_log w' = Holds ([] ++ [r]) /\
    (exists k : Z, profit_loss r = k # 10000) /\
    Qabs (profit_loss r - signed_move LONG 100 100.001 * TRADE_AMOUNT) <= 1 # 20000.
Proof.
  apply (recorded_profit_has_four_decimals (market []) [] 100 100.001 LONG). reflexivity.
Defined.

Lemma generate_summary_spec_witness :
  exists s w',
    generate_summary (market []) = Ret tt w' /\
    summary_file w' = [] ++ [s] /\
    total_profit_loss s == Qsum (map profit_loss []) /\
    trade_count s = 0%nat /\
    trades s = [] /\
    trade_log w' = Holds [] /\
    (@nil TradeRecord = [] -> total_profit_loss s = 0 /\ trade_count s = 0%nat).
Proof.
  apply (generate_summary_spec (market []) []). reflexivity.
Defined.

Lemma get_high_low_spec_witness :
  get_high_low [band_candle; mkCandle 60 105 108 101 106 2] = (Some 110, Some 100) /\
  c_high (mkCandle 60 105 108 101 106 2) <= 110 /\
  100 <= c_low (mkCandle 60 105 108 101 106 2).
Proof.
  destruct get_high_low_spec as [_ H].
  destruct (H band_candle [mkCandle 60 105 108 101 106 2])
    as (high & low & E & _ & _ & Hall).
  split; [reflexivity|].
  cbn in E. injection E as <- <-.
  apply (Hall (mkCandle 60 105 108 101 106 2)). right. now left.
Defined.

(** * Further properties of the code *)

(** ** The band *)

(** X1. When every candle has its low at most its high, the band returned
    by [get_high_low] has its low at most its high. *)
Theorem band_is_ordered :
  forall c cs,
    (forall c', In c' (c :: cs) -> c_low c' <= c_high c') ->
    exists high low,
      get_high_low (c :: cs) = (Some high, Some low) /\ low <= high.
Proof.
  intros c cs H. eexists. eexists. split; [reflexivity|].
  destruct (py_max_of_spec (map c_high cs) (c_high c)) as [_ Hub].
  destruct (py_min_of_spec (map c_low cs) (c_low c)) as [_ Hlb].
  eapply Qle_trans; [apply Hlb; now left|].
  eapply Qle_trans; [apply (H c); now left|].
  apply Hub. now left.
Qed.

Lemma band_is_ordered_witness :
  exists high low,
    get_high_low [band_candle; mkCandle 60 105 108 101 106 2] =
      (Some high, Some low) /\ low <= high.
Proof.
  apply band_is_ordered. intros c' [<-|[<-|[]]]; discriminate.
Defined.

(** X2. Fetching more candles can only widen the band: the high over a
    longer list is at least the high over its prefix, and the low is at most
    the low over the prefix. *)
Theorem band_widens_with_more_candles :
  forall c cs more high low high' low',
    get_high_low (c :: cs) = (Some high, Some low) ->
    get_high_low ((c :: cs) ++ more) = (Some high', Some low') ->
    high <= high' /\ low' <= low.
Proof.
  intros c cs more high low high' low' H H'. cbn in H, H'.
  injection H as <- <-. injection H' as <- <-.
  destruct (py_max_of_spec (map c_high cs) (c_high c)) as [Hin _].
  destruct (py_min_of_spec (map c_low cs) (c_low c)) as [Hin' _].
  destruct (py_max_of_spec (map c_high (cs ++ more)) (c_high c)) as [_ Hub].
  destruct (py_min_of_spec (map c_low (cs ++ more)) (c_low c)) as [_ Hlb].
  split.
  - apply Hub. destruct Hin as [Hin|Hin]; [now left|right].
    rewrite map_app. apply in_or_app. now left.
  - apply Hlb. destruct Hin' as [Hin'|Hin']; [now left|right].
    rewrite map_app. apply in_or_app. now left.
Qed.

Lemma band_widens_with_more_candles_witness :
  get_high_low [band_candle] = (Some 110, Some 100) /\
  get_high_low ([band_candle] ++ [mkCandle 60 105 120 95 106 2]) =
    (Some 120, Some 95) /\
  110 <= 120 /\ 95 <= 100.
Proof.
  split; [reflexivity|]. split; [reflexivity|].
  apply (band_widens_with_more_candles band_candle [] [mkCandle 60 105 120 95 106 2]);
    reflexivity.
Defined.

(** ** The trade log and the summary *)

Lemma round_half_even_nonneg (q : Q) : 0 <= q -> (0 <= round_half_even q)%Z.
Proof.
  intro H. pose proof (round_half_even_close q) as C.
  apply Qabs_Qle_condition in C. destruct C as [C _].
  set (k := round_half_even q) in *. clearbody k. destruct q as [n d].
  unfold Qle, Qminus, Qplus, Qopp, inject_Z in *. cbn [Qnum Qden] in *.
  rewrite Pos.mul_1_l in C. nia.
Qed.

Lemma round_half_even_nonpos (q : Q) : q <= 0 -> (round_half_even q <= 0)%Z.
Proof.
  intro H. pose proof (round_half_even_close q) as C.
  apply Qabs_Qle_condition in C. destruct C as [_ C].
  set (k := round_half_even q) in *. clearbody k. destruct q as [n d].
  unfold Qle, Qminus, Qplus, Qopp, inject_Z in *. cbn [Qnum Qden] in *.
  rewrite Pos.mul_1_l in C. nia.
Qed.

Lemma py_round_4_nonneg (x : Q) : 0 <= x -> 0 <= py_round x 4.
Proof.
  intro H. rewrite py_round_4_unfold.
  assert (K : (0 <= round_half_even (x * (10000 # 1)))%Z).
  { apply round_half_even_nonneg. apply Qmult_le_0_compat; [exact H | discriminate]. }
  unfold Qle. cbn. lia.
Qed.

Lemma py_round_4_nonpos (x : Q) : x <= 0 -> py_round x 4 <= 0.
Proof.
  intro H. rewrite py_round_4_unfold.
  assert (K : (round_half_even (x * (10000 # 1)) <= 0)%Z).
  { apply round_half_even_nonpos.
    setoid_replace 0 with (0 * (10000 # 1)) by ring.
    apply Qmult_le_compat_r; [exact H | discriminate]. }
  unfold Qle. cbn. lia.
Qed.

(** X3. Rounding never flips the sign of a result: the [profit_loss] that
    [log_trade] records is not negative when the price moved in the trade's
    favour (or not at all) and not positive when it moved against it (or not
    at all). *)
Theorem recorded_profit_keeps_sign :
  forall w logged e x ty why,
    trade_log w = Holds logged ->
    exists r w',
      log_trade e x ty why w = Ret tt w' /\
      trade_log w' = Holds (logged ++ [r]) /\
      (0 <= signed_move ty e x -> 0 <= profit_loss r) /\
      (signed_move ty e x <= 0 -> profit_loss r <= 0).
Proof.
  intros w logged e x ty why H.
  eexists. eexists. rewrite (log_trade_run _ _ _ _ _ _ H).
  split; [reflexivity|]. cbn [trade_log profit_loss]. split; [reflexivity|].
  split; intro Hm.
  - apply py_round_4_nonneg. apply Qmult_le_0_compat; [exact Hm | discriminate].
  - apply py_round_4_nonpos.
    setoid_replace 0 with (0 * TRADE_AMOUNT) by ring.
    apply Qmult_le_compat_r; [exact Hm | discriminate].
Qed.

Lemma recorded_profit_keeps_sign_witness :
  exists r w',
    log_trade 100 100.001 LONG "Trailing Stop Loss Hit" (market []) = Ret tt w' /\
    trade_log w' = Holds ([] ++ [r]) /\
    (0 <= signed_move LONG 100 100.001 -> 0 <= profit_loss r) /\
    (signed_move LONG 100 100.001 <= 0 -> profit_loss r <= 0).
Proof.
  apply (recorded_profit_keeps_sign (market []) [] 100 100.001 LONG). reflexivity.
Defined.

Lemma generate_summary_run (w : World) (logged : list TradeRecord) :
  trade_log w = Holds logged ->
  generate_summary w =
  Ret tt (mkWorld (ohlcv_feed w) (ticker_feed w) (clock w) (start_time w)
            (Holds [])
            (summary_file w ++
               [mkSummary (clock w - THIRTY_DAYS)%Z (clock w)
                          (py_sum (map profit_loss logged))
                          (List.length logged) logged])
            (trace w ++
               [EvTelegram (MsgReport (py_sum (map profit_loss logged)))])).
Proof.
  intro H. unfold generate_summary, bind, now, load_trade_log. rewrite H.
  reflexivity.
Qed.

Lemma generate_summary_unreadable (w : World) (error : string) :
  trade_log w = Unreadable error ->
  generate_summary w = Raise (Exception error) w.
Proof.
  intro H. unfold generate_summary, bind, load_trade_log. rewrite H. reflexivity.
Qed.

Lemma log_trades_run (ts : list (Q * Q * side)) :
  forall w logged,
    trade_log w = Holds logged ->
    exists recs,
      log_trades ts w =
      Ret tt (mkWorld (ohlcv_feed w) (ticker_feed w) (clock w) (start_time w)
                (Holds (logged ++ recs)) (summary_file w) (trace w)) /\
      map (fun r => (entry_price r, exit_price r, trade_type r)) recs = ts /\
      Forall (fun r =>
                Qabs (profit_loss r -
                      signed_move (trade_type r) (entry_price r) (exit_price r)
                      * TRADE_AMOUNT) <= 1 # 20000) recs.
Proof.
  induction ts as [|[[e x] ty] ts IH]; intros w logged H.
  - exists []. destruct w. cbn in *. subst. rewrite app_nil_r.
    repeat split. constructor.
  - cbn [log_trades]. unfold bind. rewrite (log_trade_run _ _ _ _ _ _ H).
    match goal with |- context [log_trades ts ?w1] =>
      destruct (IH w1 _ eq_refl) as (recs & R & Hm & Hb) end.
    eexists (_ :: recs). rewrite R.
    cbn [ohlcv_feed ticker_feed clock start_time trade_log summary_file trace].
    rewrite <- app_assoc. split; [reflexivity|]. split.
    + cbn [map entry_price exit_price trade_type]. now rewrite Hm.
    + constructor; [|exact Hb]. cbn [profit_loss entry_price exit_price trade_type].
      apply py_round_4_close.
Qed.

(** X4. A summary covers exactly the trades logged since the previous one.
    After [generate_summary] has archived a readable log, any sequence of
    [log_trade] calls followed by [generate_summary] archives a second
    record that holds those trades and no others, in the order they were
    logged, each with a result within half a ten-thousandth of its price
    move x amount; its count is their number, its total the sum of their
    recorded results, and the log is empty again. *)
Theorem summary_covers_trades_since_last :
  forall w logged ts,
    trade_log w = Holds logged ->
    exists s1 s2 w',
      (generate_summary ;; log_trades ts ;; generate_summary) w = Ret tt w' /\
      summary_file w' = summary_file w ++ [s1; s2] /\
      trades s1 = logged /\
      map (fun r => (entry_price r, exit_price r, trade_type r)) (trades s2) = ts /\
      trade_count s2 = List.length ts /\
      total_profit_loss s2 == Qsum (map profit_loss (trades s2)) /\
      Forall (fun r =>
                Qabs (profit_loss r -
                      signed_move (trade_type r) (entry_price r) (exit_price r)
                      * TRADE_AMOUNT) <= 1 # 20000) (trades s2) /\
      trade_log w' = Holds [].
Proof.
  intros w logged ts H. unfold bind at 1.
  rewrite (generate_summary_run _ _ H). unfold bind.
  match goal with |- context [log_trades ts ?w1] =>
    destruct (log_trades_run ts w1 [] eq_refl) as (recs & R & Hm & Hb) end.
  rewrite R. erewrite generate_summary_run by reflexivity.
  eexists. eexists. eexists. split; [reflexivity|].
  cbn [ohlcv_feed ticker_feed clock start_time trade_log summary_file trace
       trades trade_count total_profit_loss app].
  split; [now rewrite <- app_assoc|]. split; [reflexivity|].
  split; [exact Hm|]. split; [now rewrite <- Hm, length_map|].
  split; [apply py_sum_Qsum|]. split; [exact Hb | reflexivity].
Qed.

Lemma summary_covers_trades_since_last_witness :
  exists s1 s2 w',
    (generate_summary ;; log_trades [(111, 99, LONG); (99, 100.125, SHORT)] ;;
     generate_summary) (market []) = Ret tt w' /\
    summary_file w' = [] ++ [s1; s2] /\
    trades s1 = [] /\
    map (fun r => (entry_price r, exit_price r, trade_type r)) (trades s2) =
      [(111, 99, LONG); (99, 100.125, SHORT)] /\
    trade_count s2 = 2%nat /\
    total_profit_loss s2 == Qsum (map profit_loss (trades s2)) /\
    Forall (fun r =>
              Qabs (profit_loss r -
                    signed_move (trade_type r) (entry_price r) (exit_price r)
                    * TRADE_AMOUNT) <= 1 # 20000) (trades s2) /\
    trade_log w' = Holds [].
Proof.
  apply (summary_covers_trades_since_last (market []) []
           [(111, 99, LONG); (99, 100.125, SHORT)]).
  reflexivity.
Defined.

(** ** The monthly rollover *)

Lemma rollover_early (w : World) :
  (clock w < start_time w + THIRTY_DAYS)%Z -> rollover w = Ret tt w.
Proof.
  intro H. unfold rollover, bind, now, get_start_time.
  apply Z.leb_gt in H. rewrite H. reflexivity.
Qed.

Lemma rollover_due (w : World) :
  (start_time w + THIRTY_DAYS <= clock w)%Z ->
  rollover w = (generate_summary ;; t' <- now ;; set_start_time t') w.
Proof.
  intro H. unfold rollover. unfold bind at 1 2. unfold now at 1.
  unfold get_start_time. apply Z.leb_le in H. rewrite H. reflexivity.
Qed.

(** X5. Before 30 days have passed since [start_time] the rollover does
    nothing.  Once they have, with a readable log, it archives the logged
    trades, empties the log and moves [start_time] to the current time, so
    that a rollover right after it does nothing again. *)
Theorem rollover_once_per_period :
  (forall w, (clock w < start_time w + THIRTY_DAYS)%Z -> rollover w = Ret tt w) /\
  (forall w logged,
      trade_log w = Holds logged ->
      (start_time w + THIRTY_DAYS <= clock w)%Z ->
      exists s w',
        rollover w = Ret tt w' /\
        summary_file w' = summary_file w ++ [s] /\ trades s = logged /\
        start_date s = (clock w - THIRTY_DAYS)%Z /\ end_date s = clock w /\
        trade_log w' = Holds [] /\
        start_time w' = clock w /\ clock w' = clock w /\
        rollover w' = Ret tt w').
Proof.
  split; [exact rollover_early|].
  intros w logged H Hdue. rewrite (rollover_due _ Hdue). unfold bind.
  rewrite (generate_summary_run _ _ H). cbn [now set_start_time clock].
  eexists. eexists. split; [reflexivity|].
  cbn [summary_file trades start_date end_date trade_log start_time clock].
  repeat split. apply rollover_early. cbn [clock start_time].
  unfold THIRTY_DAYS. lia.
Qed.

Lemma rollover_once_per_period_witness :
  rollover (market []) = Ret tt (market []) /\
  exists s w',
    rollover (mkWorld [] [] THIRTY_DAYS 0 (Holds []) [] []) = Ret tt w' /\
    summary_file w' = [] ++ [s] /\ trades s = [] /\
    start_date s = (THIRTY_DAYS - THIRTY_DAYS)%Z /\ end_date s = THIRTY_DAYS /\
    trade_log w' = Holds [] /\
    start_time w' = THIRTY_DAYS /\ clock w' = THIRTY_DAYS /\
    rollover w' = Ret tt w'.
Proof.
  destruct rollover_once_per_period as [Hearly Hdue]. split.
  - apply Hearly. reflexivity.
  - apply (Hdue (mkWorld [] [] THIRTY_DAYS 0 (Holds []) [] []) []);
      [reflexivity | discriminate].
Defined.

Lemma crash_trace_S (text : string) (n : nat) :
  crash_trace text (S n) =
  [EvTelegram (MsgCrashed text); EvSleep 10] ++ crash_trace text n.
Proof. reflexivity. Qed.

(** X6. Once the rollover is due and the trade log cannot be read, every
    iteration of [main] fails in [generate_summary] before the market is
    looked at: it sends the crash message with the error text and sleeps 10
    seconds, [start_time] is never moved, and no exchange call is ever made
    again. *)
Theorem unreadable_log_crash_loop :
  forall n fuel w error,
    trade_log w = Unreadable error ->
    (start_time w + THIRTY_DAYS <= clock w)%Z ->
    main_loop n fuel w =
    Stuck (mkWorld (ohlcv_feed w) (ticker_feed w) (clock w + 10 * Z.of_nat n)%Z
             (start_time w) (trade_log w) (summary_file w)
             (trace w ++ crash_trace error n)).
Proof.
  induction n as [|n IH]; intros fuel w error H Hdue.
  - destruct w. cbn. now rewrite Z.add_0_r, app_nil_r.
  - cbn [main_loop]. unfold bind. rewrite main_iteration_step, main_body_step.
    rewrite (rollover_due _ Hdue). unfold bind at 1.
    rewrite (generate_summary_unreadable _ error H).
    erewrite IH; [|exact H | cbn [elapse emit clock start_time]; lia].
    destruct w.
    cbn [elapse emit ohlcv_feed ticker_feed clock start_time trade_log
         summary_file trace].
    rewrite crash_trace_S, <- !app_assoc. do 2 f_equal. lia.
Qed.

Lemma unreadable_log_crash_loop_witness :
  main_loop 2 5 broken_log_market =
  Stuck (mkWorld [inr [band_candle]] [] (THIRTY_DAYS + 20) 0
           (Unreadable "Expecting value: line 1 column 1 (char 0)") []
           (crash_trace "Expecting value: line 1 column 1 (char 0)" 2)).
Proof.
  apply (unreadable_log_crash_loop 2 5 broken_log_market
           "Expecting value: line 1 column 1 (char 0)");
    [reflexivity | discriminate].
Defined.

(** ** The market data gateway *)

Lemma fetch_candles_from_no_exception (n : nat) (w : World) :
  no_exception (fetch_candles_from n w).
Proof.
  revert w. induction n as [|n IH]; intro w; [exact I|].
  cbn [fetch_candles_from]. unfold bind at 1, try_except, bind at 1, fetch_ohlcv.
  destruct (ohlcv_feed w) as [|[[t|t]|c] rest]; cbn [ret no_exception];
    try exact I.
  unfold bind. cbn [sleep]. apply IH.
Qed.

Lemma get_current_price_from_no_exception (n : nat) (w : World) :
  no_exception (get_current_price_from n w).
Proof.
  revert w. induction n as [|n IH]; intro w; [exact I|].
  cbn [get_current_price_from].
  unfold bind at 1, try_except, bind at 1, fetch_ticker_last.
  destruct (ticker_feed w) as [|[[t|t]|c] rest]; cbn [ret no_exception];
    try exact I.
  unfold bind. cbn [sleep]. apply IH.
Qed.

Lemma fetch_candles_from_interrupted (texts : list string) :
  forall n w t rest,
    (List.length texts < n)%nat ->
    ohlcv_feed w = failures texts ++ inl (BaseException t) :: rest ->
    fetch_candles_from n w =
    Raise (BaseException t)
      (mkWorld rest (ticker_feed w)
         (clock w + 5 * Z.of_nat (List.length texts))%Z (start_time w)
         (trade_log w) (summary_file w)
         (trace w ++ retry_trace EvFetchOhlcv (List.length texts)
            ++ [EvFetchOhlcv])).
Proof.
  induction texts as [|x ts IH]; intros n [cf tf ck st tl sf tr] t rest Hn H;
    cbn [ohlcv_feed ticker_feed clock start_time trade_log summary_file trace] in *;
    (destruct n as [|n]; [cbn in Hn; lia|]).
  - cbn in H. subst cf. cbn. now rewrite Z.add_0_r.
  - cbn in H. subst cf. cbn [List.length fetch_candles_from].
    unfold bind at 1. unfold try_except, bind at 1, fetch_ohlcv. cbn [ohlcv_feed].
    cbn [ret]. unfold bind at 1. cbn [sleep elapse].
    cbn [ohlcv_feed ticker_feed clock start_time trade_log summary_file trace].
    erewrite (IH n _ t rest); [|cbn in Hn; lia|reflexivity].
    cbn [elapse ohlcv_feed ticker_feed clock start_time trade_log summary_file trace].
    rewrite retry_trace_S, <- !app_assoc. do 2 f_equal. lia.
Qed.

Lemma get_current_price_from_interrupted (texts : list string) :
  forall n w t rest,
    (List.length texts < n)%nat ->
    ticker_feed w = failures texts ++ inl (BaseException t) :: rest ->
    get_current_price_from n w =
    Raise (BaseException t)
      (mkWorld (ohlcv_feed w) rest
         (clock w + 5 * Z.of_nat (List.length texts))%Z (start_time w)
         (trade_log w) (summary_file w)
         (trace w ++ retry_trace EvFetchTicker (List.length texts)
            ++ [EvFetchTicker])).
Proof.
  induction texts as [|x ts IH]; intros n [cf tf ck st tl sf tr] t rest Hn H;
    cbn [ohlcv_feed ticker_feed clock start_time trade_log summary_file trace] in *;
    (destruct n as [|n]; [cbn in Hn; lia|]).
  - cbn in H. subst tf. cbn. now rewrite Z.add_0_r.
  - cbn in H. subst tf. cbn [List.length get_current_price_from].
    unfold bind at 1. unfold try_except, bind at 1, fetch_ticker_last.
    cbn [ticker_feed]. cbn [ret]. unfold bind at 1. cbn [sleep elapse].
    cbn [ohlcv_feed ticker_feed clock start_time trade_log summary_file trace].
    erewrite (IH n _ t rest); [|cbn in Hn; lia|reflexivity].
    cbn [elapse ohlcv_feed ticker_feed clock start_time trade_log summary_file trace].
    rewrite retry_trace_S, <- !app_assoc. do 2 f_equal. lia.
Qed.

(** X7. [fetch_candles] and [get_current_price] never raise an instance of
    [Exception].  An exception that is not one, raised by the exchange call
    after fewer than three failed attempts, leaves the function at once: no
    backoff sleep follows that attempt and no further attempt is made. *)
Theorem fetch_swallows_exceptions_only :
  (forall w, no_exception (fetch_candles w)) /\
  (forall w, no_exception (get_current_price w)) /\
  (forall texts w t rest,
      (List.length texts < 3)%nat ->
      ohlcv_feed w = failures texts ++ inl (BaseException t) :: rest ->
      fetch_candles w =
      Raise (BaseException t)
        (mkWorld rest (ticker_feed w)
           (clock w + 5 * Z.of_nat (List.length texts))%Z (start_time w)
           (trade_log w) (summary_file w)
           (trace w ++ retry_trace EvFetchOhlcv (List.length texts)
              ++ [EvFetchOhlcv]))) /\
  (forall texts w t rest,
      (List.length texts < 3)%nat ->
      ticker_feed w = failures texts ++ inl (BaseException t) :: rest ->
      get_current_price w =
      Raise (BaseException t)
        (mkWorld (ohlcv_feed w) rest
           (clock w + 5 * Z.of_nat (List.length texts))%Z (start_time w)
           (trade_log w) (summary_file w)
           (trace w ++ retry_trace EvFetchTicker (List.length texts)
              ++ [EvFetchTicker]))).
Proof.
  repeat apply conj.
  - intro w. apply fetch_candles_from_no_exception.
  - intro w. apply get_current_price_from_no_exception.
  - intros texts w t rest Hn H. now apply fetch_candles_from_interrupted.
  - intros texts w t rest Hn H. now apply get_current_price_from_interrupted.
Qed.

Lemma fetch_swallows_exceptions_only_witness :
  fetch_candles interrupted_market =
    Raise (BaseException "KeyboardInterrupt")
      (mkWorld [] [] 0 0 (Holds []) [] [EvFetchOhlcv]) /\
  get_current_price
    (market [inl (Exception "timeout"); inl (BaseException "SystemExit"); inr 105]) =
    Raise (BaseException "SystemExit")
      (mkWorld [inr [band_candle]] [inr 105] 5 0 (Holds []) []
         [EvFetchTicker; EvSleep 5; EvFetchTicker]).
Proof.
  destruct fetch_swallows_exceptions_only as (_ & _ & Hc & Hp). split.
  - apply (Hc [] interrupted_market "KeyboardInterrupt"%string []);
      [cbn; lia | reflexivity].
  - apply (Hp ["timeout"]%string
              (market [inl (Exception "timeout"); inl (BaseException "SystemExit");
                       inr 105])
              "SystemExit"%string [inr 105]);
      [cbn; lia | reflexivity].
Defined.

Lemma fetch_candles_from_clock (n : nat) (w : World) :
  (clock w <= clock (world_of (fetch_candles_from n w)) <=
   clock w + 5 * Z.of_nat n)%Z.
Proof.
  revert w. induction n as [|n IH]; intro w; [cbn; lia|].
  remember (fetch_candles_from (S n) w) as r eqn:E.
  cbn [fetch_candles_from] in E.
  unfold bind at 1, try_except, bind at 1, fetch_ohlcv in E.
  destruct (ohlcv_feed w) as [|[[t|t]|c] rest]; cbn [ret] in E;
    try (subst r; cbn [ret world_of clock]; lia).
  unfold bind in E. cbn [sleep] in E. subst r.
  match goal with |- context [fetch_candles_from n ?w1] =>
    specialize (IH w1); cbn [elapse clock] in IH end.
  lia.
Qed.

Lemma get_current_price_from_clock (n : nat) (w : World) :
  (clock w <= clock (world_of (get_current_price_from n w)) <=
   clock w + 5 * Z.of_nat n)%Z.
Proof.
  revert w. induction n as [|n IH]; intro w; [cbn; lia|].
  remember (get_current_price_from (S n) w) as r eqn:E.
  cbn [get_current_price_from] in E.
  unfold bind at 1, try_except, bind at 1, fetch_ticker_last in E.
  destruct (ticker_feed w) as [|[[t|t]|c] rest]; cbn [ret] in E;
    try (subst r; cbn [ret world_of clock]; lia).
  unfold bind in E. cbn [sleep] in E. subst r.
  match goal with |- context [get_current_price_from n ?w1] =>
    specialize (IH w1); cbn [elapse clock] in IH end.
  lia.
Qed.

(** X8. Whatever the exchange answers, [fetch_candles] and
    [get_current_price] sleep at most 15 seconds in all, and an iteration of
    the monitoring loop that does not enter a position sleeps at least 10
    and at most 25 seconds. *)
Theorem polling_time_is_bounded :
  (forall w,
      (clock w <= clock (world_of (fetch_candles w)) <= clock w + 15)%Z) /\
  (forall w,
      (clock w <= clock (world_of (get_current_price w)) <= clock w + 15)%Z) /\
  (forall fuel high low sig sig' w w',
      monitor_iteration fuel high low sig w = Ret (Continue sig') w' ->
      (clock w + 10 <= clock w' <= clock w + 25)%Z).
Proof.
  repeat apply conj.
  - intro w. apply (fetch_candles_from_clock 3 w).
  - intro w. apply (get_current_price_from_clock 3 w).
  - intros fuel high low sig sig' w w'. rewrite monitor_iteration_step.
    pose proof (get_current_price_from_clock 3 (elapse 10 w)) as Hc.
    fold get_current_price in Hc. cbn [elapse clock] in Hc.
    destruct (get_current_price (elapse 10 w)) as [[p|] w1|x w1|w1];
      cbn [world_of] in Hc; try discriminate.
    + rewrite on_price_step.
      pose proof (calm_update_signal high low sig p w1) as Hu.
      destruct (update_signal high low sig p w1) as [s1 w2|x w2|w2] eqn:Eu;
        try discriminate.
      assert (Ew : clock w2 = clock w1).
      { unfold update_signal in Eu. destruct sig.
        - inversion Eu. reflexivity.
        - destruct (high <? p); [inversion Eu; reflexivity|].
          destruct (p <? low); inversion Eu; reflexivity. }
      destruct (entry_branch high low s1 p) as [[[k ty] stop]|].
      * destruct (trailing_stop_loss fuel p stop ty _); discriminate.
      * intro H. inversion H. subst. lia.
    + intro H. inversion H. subst. lia.
Qed.

Lemma polling_time_is_bounded_witness :
  monitor_iteration 2 110 100 None (market [inr 105]) =
    Ret (Continue None)
      (mkWorld [inr [band_candle]] [] 10 0 (Holds []) []
               [EvSleep 10; EvFetchTicker]) /\
  let w := market [inr 105] in (clock w + 10 <= 10 <= clock w + 25)%Z.
Proof.
  split; [reflexivity|].
  destruct polling_time_is_bounded as (_ & _ & H).
  apply (H 2%nat 110 100 None None (market [inr 105])
           (mkWorld [inr [band_candle]] [] 10 0 (Holds []) []
                    [EvSleep 10; EvFetchTicker])).
  reflexivity.
Defined.

(** ** The position monitor *)

Lemma Qmult_le_l_nonneg (e a b : Q) : 0 <= e -> a <= b -> e * a <= e * b.
Proof.
  intros He Hab. rewrite (Qmult_comm e a), (Qmult_comm e b).
  now apply Qmult_le_compat_r.
Qed.

Lemma tighten_long_bounded (e s p M : Q) :
  s <= M -> e * 1.005 <= M -> e * 1.01 <= M -> tighten LONG e s p <= M.
Proof.
  intros Hs H1 H2. unfold tighten, py_max.
  repeat match goal with
         | |- context [if ?c then _ else _] => destruct c
         end; assumption.
Qed.

Lemma tighten_short_bounded (e s p M : Q) :
  M <= s -> M <= e * 0.995 -> M <= e * 0.99 -> M <= tighten SHORT e s p.
Proof.
  intros Hs H1 H2. unfold tighten, py_min.
  repeat match goal with
         | |- context [if ?c then _ else _] => destruct c
         end; assumption.
Qed.

(** A returned call has logged one record at a price that hit a stop kept
    within the bound [ok]. *)
Lemma trailing_stop_loss_exit (ok : Q -> Prop) (ty : side) (e : Q) :
  (forall s p, ok s -> ok (tighten ty e s p)) ->
  forall fuel s w w',
    ok s ->
    trailing_stop_loss fuel e s ty w = Ret tt w' ->
    exists logged rec s',
      trade_log w' = Holds (logged ++ [rec]) /\
      entry_price rec = e /\ trade_type rec = ty /\
      ok s' /\ stop_hit ty (exit_price rec) s' = true.
Proof.
  intros Hok. induction fuel as [|fuel IH]; intros s w w' Hs H; [discriminate|].
  rewrite trailing_stop_loss_step in H.
  destruct (get_current_price (elapse 10 w)) as [[p|] w1|x w1|w1];
    try discriminate.
  - destruct (stop_hit ty p (tighten ty e s p)) eqn:Hit.
    + unfold bind in H. destruct (trade_log w1) as [error|logged] eqn:L.
      * rewrite (log_trade_unreadable _ _ _ _ _ _ L) in H. discriminate.
      * rewrite (log_trade_run _ _ _ _ _ _ L) in H.
        cbn [send_telegram_message] in H. inversion H. subst w'.
        eexists logged, _, (tighten ty e s p). split; [reflexivity|].
        cbn [entry_price trade_type exit_price].
        repeat split; [now apply Hok | exact Hit].
    + eapply IH; [|exact H]. now apply Hok.
  - eapply IH; eassumption.
Qed.

(** X9. The trailing stop caps the gain.  For a non-negative entry price,
    a LONG position that is closed is closed at a price below the larger of
    its initial stop and entry x 1.01, and a SHORT position at a price above
    the smaller of its initial stop and entry x 0.99: the stop is never
    moved past these levels, however far the price runs. *)
Theorem trailing_stop_caps_gain :
  forall fuel e s w w',
    0 <= e ->
    (trailing_stop_loss fuel e s LONG w = Ret tt w' ->
     exists logged rec,
       trade_log w' = Holds (logged ++ [rec]) /\
       entry_price rec = e /\ trade_type rec = LONG /\
       exit_price rec < py_max s (e * 1.01)) /\
    (trailing_stop_loss fuel e s SHORT w = Ret tt w' ->
     exists logged rec,
       trade_log w' = Holds (logged ++ [rec]) /\
       entry_price rec = e /\ trade_type rec = SHORT /\
       py_min s (e * 0.99) < exit_price rec).
Proof.
  intros fuel e s w w' He. split; intro H.
  - destruct (trailing_stop_loss_exit (fun st => st <= py_max s (e * 1.01)) LONG e)
      with (fuel := fuel) (s := s) (w := w) (w' := w')
      as (logged & rec & s' & L & E1 & E2 & Hs' & Hit).
    + intros st p Hst. apply tighten_long_bounded; [exact Hst| |apply py_max_ge_r].
      eapply Qle_trans; [|apply py_max_ge_r].
      apply Qmult_le_l_nonneg; [exact He | discriminate].
    + apply py_max_ge_l.
    + exact H.
    + exists logged, rec. repeat split; try assumption.
      eapply Qlt_le_trans; [|exact Hs']. apply Qltb_iff, Hit.
  - destruct (trailing_stop_loss_exit (fun st => py_min s (e * 0.99) <= st) SHORT e)
      with (fuel := fuel) (s := s) (w := w) (w' := w')
      as (logged & rec & s' & L & E1 & E2 & Hs' & Hit).
    + intros st p Hst. apply tighten_short_bounded; [exact Hst| |apply py_min_le_r].
      eapply Qle_trans; [apply py_min_le_r|].
      apply Qmult_le_l_nonneg; [exact He | discriminate].
    + apply py_min_le_l.
    + exact H.
    + exists logged, rec. repeat split; try assumption.
      eapply Qle_lt_trans; [exact Hs'|]. apply Qltb_iff, Hit.
Qed.

Lemma trailing_stop_caps_gain_witness :
  0 <= 100 /\
  exists logged rec,
    trade_log
      (world_of (trailing_stop_loss 3 100 95 LONG
                   (market [inr 103; inr 150; inr 100.9]))) =
      Holds (logged ++ [rec]) /\
    entry_price rec = 100 /\ trade_type rec = LONG /\
    exit_price rec < py_max 95 (100 * 1.01).
Proof.
  split; [discriminate|].
  apply (proj1 (trailing_stop_caps_gain 3 100 95
                  (market [inr 103; inr 150; inr 100.9])
                  (world_of (trailing_stop_loss 3 100 95 LONG
                               (market [inr 103; inr 150; inr 100.9])))
                  ltac:(discriminate))).
  reflexivity.
Defined.

Lemma stop_hit_tighten (ty : side) (e s p q : Q) :
  stop_hit ty q s = true -> stop_hit ty q (tighten ty e s p) = true.
Proof.
  destruct ty; cbn [stop_hit]; intro H; apply Qltb_iff in H; apply Qltb_iff.
  - eapply Qlt_le_trans; [exact H | apply tighten_long_ge].
  - eapply Qle_lt_trans; [apply tighten_short_le | exact H].
Qed.

(** X10. A position is closed no later than the first price beyond its
    initial stop.  If the exchange answers the coming polls with [prices],
    one of them hits the initial stop (below it for LONG, above it for
    SHORT), the log is readable and the loop may run that many iterations,
    then [trailing_stop_loss] returns, having appended exactly one record
    whose exit price is one of [prices]. *)
Theorem stop_closes_position :
  forall prices ty e s fuel w rest logged,
    ticker_feed w = map inr prices ++ rest ->
    trade_log w = Holds logged ->
    Exists (fun p => stop_hit ty p s = true) prices ->
    (List.length prices <= fuel)%nat ->
    exists w' rec,
      trailing_stop_loss fuel e s ty w = Ret tt w' /\
      trade_log w' = Holds (logged ++ [rec]) /\
      entry_price rec = e /\ trade_type rec = ty /\
      In (exit_price rec) prices.
Proof.
  induction prices as [|p ps IH]; intros ty e s fuel w rest logged Hf Hl Hex Hn.
  - inversion Hex.
  - destruct fuel as [|fuel]; [cbn in Hn; lia|].
    rewrite trailing_stop_loss_step, (poll_answered w p (map inr ps ++ rest) Hf).
    destruct (stop_hit ty p (tighten ty e s p)) eqn:Hit.
    + unfold bind. erewrite log_trade_run by exact Hl.
      cbn [send_telegram_message]. eexists. eexists.
      split; [reflexivity|]. cbn. repeat split. now left.
    + assert (Hex' : Exists (fun q => stop_hit ty q (tighten ty e s p) = true) ps).
      { inversion Hex as [? ? Hp|? ? Hps]; subst.
        - apply (stop_hit_tighten ty e s p) in Hp. congruence.
        - eapply Exists_impl; [|exact Hps].
          intros q Hq. now apply stop_hit_tighten. }
      match goal with
      | |- context [trailing_stop_loss fuel e ?s' ty ?w1] =>
          destruct (IH ty e s' fuel w1 rest logged eq_refl Hl Hex'
                       ltac:(cbn in Hn; lia))
            as (w' & rec & R & L & E1 & E2 & Hin)
      end.
      exists w', rec. repeat split; try assumption. now right.
Qed.

Lemma stop_closes_position_witness :
  exists w' rec,
    trailing_stop_loss 3 111 100 LONG (market [inr 105; inr 99; inr 98]) =
      Ret tt w' /\
    trade_log w' = Holds ([] ++ [rec]) /\
    entry_price rec = 111 /\ trade_type rec = LONG /\
    In (exit_price rec) [105; 99; 98].
Proof.
  apply (stop_closes_position [105; 99; 98] LONG 111 100 3
           (market [inr 105; inr 99; inr 98]) [] []).
  - reflexivity.
  - reflexivity.
  - right. left. reflexivity.
  - cbn. lia.
Defined.

(** ** The signal engine *)

Lemma get_current_price_from_in_band (high low : Q) (n : nat) (w : World) :
  forallb (in_band high low) (ticker_feed w) = true ->
  let r := get_current_price_from n w in
  forallb (in_band high low) (ticker_feed (world_of r)) = true /\
  trade_log (world_of r) = trade_log w /\
  (exists d, trace (world_of r) = trace w ++ d /\ forallb polling d = true) /\
  (forall p w', r = Ret (Some p) w' -> (high <? p) = false /\ (p <? low) = false).
Proof.
  revert w. induction n as [|n IH]; intros w Hb r.
  - subst r. cbn. repeat split; try assumption; try discriminate.
    exists []. now rewrite app_nil_r.
  - subst r. remember (get_current_price_from (S n) w) as r eqn:E.
    cbn [get_current_price_from] in E.
    unfold bind at 1, try_except, bind at 1, fetch_ticker_last in E.
    destruct (ticker_feed w) as [|[[t|t]|p] rest] eqn:F; cbn [ret] in E.
    + subst r. cbn [world_of]. rewrite F. repeat split; try discriminate.
      exists []. now rewrite app_nil_r.
    + unfold bind in E. cbn [sleep] in E. cbn in Hb.
      match type of E with _ = get_current_price_from n ?w1 =>
        destruct (IH w1 Hb) as (B & L & (d & T & P) & V) end.
      subst r. split; [exact B|]. split; [exact L|]. split; [|exact V].
      exists ([EvFetchTicker; EvSleep 5] ++ d). split.
      * rewrite T. cbn [elapse trace]. now rewrite <- !app_assoc.
      * rewrite forallb_app, P. reflexivity.
    + subst r. cbn [world_of ticker_feed trade_log trace]. cbn in Hb.
      repeat split; try assumption; try discriminate. now exists [EvFetchTicker].
    + subst r. cbn [world_of ticker_feed trade_log trace]. cbn in Hb.
      apply andb_true_iff in Hb as [Hp Hb].
      apply andb_true_iff in Hp as [Hh Hlow].
      apply negb_true_iff in Hh, Hlow.
      repeat split; try assumption.
      * now exists [EvFetchTicker].
      * inversion H. now subst.
      * inversion H. now subst.
Qed.

(** X11. No breakout, no trade.  While every price the exchange answers is
    neither above [high] nor below [low], the monitoring loop never returns,
    sends no message at all (its trace holds only sleeps and ticker
    requests) and leaves the trade log untouched. *)
Theorem no_breakout_no_trade :
  forall fuel high low w,
    forallb (in_band high low) (ticker_feed w) = true ->
    (forall a w', monitor_loop fuel high low None w <> Ret a w') /\
    trade_log (world_of (monitor_loop fuel high low None w)) = trade_log w /\
    exists d,
      trace (world_of (monitor_loop fuel high low None w)) = trace w ++ d /\
      forallb polling d = true.
Proof.
  induction fuel as [|fuel IH]; intros high low w Hb.
  - cbn. repeat split; try discriminate. exists []. now rewrite app_nil_r.
  - remember (monitor_loop (S fuel) high low None w) as r eqn:E.
    cbn [monitor_loop] in E. unfold bind in E.
    rewrite monitor_iteration_step in E.
    destruct (get_current_price_from_in_band high low 3 (elapse 10 w) Hb)
      as (B & L & (d & T & P) & V).
    fold get_current_price in B, L, T, V.
    destruct (get_current_price (elapse 10 w)) as [[p|] w1|x w1|w1];
      cbn [world_of] in B, L, T.
    + destruct (V p w1 eq_refl) as [Hh Hlow].
      rewrite (on_price_inside _ _ _ _ _ Hh Hlow) in E.
      destruct (IH high low w1 B) as (N & L' & (d' & T' & P')). subst r.
      split; [exact N|]. split; [now rewrite L', L|].
      exists ([EvSleep 10] ++ d ++ d'). split.
      * rewrite T', T. cbn [elapse trace]. now rewrite <- !app_assoc.
      * rewrite !forallb_app, P, P'. reflexivity.
    + destruct (IH high low w1 B) as (N & L' & (d' & T' & P')). subst r.
      split; [exact N|]. split; [now rewrite L', L|].
      exists ([EvSleep 10] ++ d ++ d'). split.
      * rewrite T', T. cbn [elapse trace]. now rewrite <- !app_assoc.
      * rewrite !forallb_app, P, P'. reflexivity.
    + subst r. split; [discriminate|]. split; [exact L|].
      exists ([EvSleep 10] ++ d). split.
      * cbn [world_of]. rewrite T. cbn [elapse trace]. now rewrite <- !app_assoc.
      * rewrite forallb_app, P. reflexivity.
    + subst r. split; [discriminate|]. split; [exact L|].
      exists ([EvSleep 10] ++ d). split.
      * cbn [world_of]. rewrite T. cbn [elapse trace]. now rewrite <- !app_assoc.
      * rewrite forallb_app, P. reflexivity.
Qed.

Lemma no_breakout_no_trade_witness :
  (forall a w',
      monitor_loop 5 110 100 None
        (market [inr 105; inl (Exception "timeout"); inr 110; inr 100]) <>
      Ret a w') /\
  trade_log
    (world_of (monitor_loop 5 110 100 None
                 (market [inr 105; inl (Exception "timeout"); inr 110; inr 100]))) =
    Holds [] /\
  exists d,
    trace
      (world_of (monitor_loop 5 110 100 None
                   (market [inr 105; inl (Exception "timeout"); inr 110; inr 100]))) =
      [] ++ d /\
    forallb polling d = true.
Proof.
  apply (no_breakout_no_trade 5 110 100
           (market [inr 105; inl (Exception "timeout"); inr 110; inr 100])).
  reflexivity.
Defined.

(** ** The ratchet *)

Lemma py_max_absorb (x a : Q) : a <= x -> py_max x a = x.
Proof.
  intro H. unfold py_max. apply Qltb_false_iff in H. now rewrite H.
Qed.

Lemma py_min_absorb (x a : Q) : x <= a -> py_min x a = x.
Proof.
  intro H. unfold py_min. apply Qltb_false_iff in H. now rewrite H.
Qed.

Lemma tighten_long_first (e s p : Q) :
  (e * 1.01 <? p) = true -> e * 1.005 <= tighten LONG e s p.
Proof.
  intro H. unfold tighten. rewrite H. destruct (e * 1.02 <? p).
  - eapply Qle_trans; [apply py_max_ge_r | apply py_max_ge_l].
  - apply py_max_ge_r.
Qed.

Lemma tighten_long_second (e s p : Q) :
  (e * 1.02 <? p) = true -> e * 1.01 <= tighten LONG e s p.
Proof. intro H. unfold tighten. rewrite H. apply py_max_ge_r. Qed.

Lemma tighten_short_first (e s p : Q) :
  (p <? e * 0.99) = true -> tighten SHORT e s p <= e * 0.995.
Proof.
  intro H. unfold tighten. rewrite H. destruct (p <? e * 0.98).
  - eapply Qle_trans; [apply py_min_le_l | apply py_min_le_r].
  - apply py_min_le_r.
Qed.

Lemma tighten_short_second (e s p : Q) :
  (p <? e * 0.98) = true -> tighten SHORT e s p <= e * 0.99.
Proof. intro H. unfold tighten. rewrite H. apply py_min_le_r. Qed.

Lemma Qltb_le_trans (x p q : Q) : (x <? p) = true -> p <= q -> (x <? q) = true.
Proof.
  intros H Hpq. apply Qltb_iff. eapply Qlt_le_trans; [|exact Hpq].
  now apply Qltb_iff.
Qed.

Lemma Qle_ltb_trans (x p q : Q) : q <= p -> (p <? x) = true -> (q <? x) = true.
Proof.
  intros Hpq H. apply Qltb_iff. eapply Qle_lt_trans; [exact Hpq|].
  now apply Qltb_iff.
Qed.

(** X12. The stop is a ratchet on the price.  Seeing the same price again
    does not move the stop a second time, and a more favourable price (higher
    for LONG, lower for SHORT) never gives a looser stop than a less
    favourable one. *)
Theorem tighten_is_a_ratchet :
  (forall ty e s p, tighten ty e (tighten ty e s p) p = tighten ty e s p) /\
  (forall e s p q, p <= q -> tighten LONG e s p <= tighten LONG e s q) /\
  (forall e s p q, q <= p -> tighten SHORT e s q <= tighten SHORT e s p).
Proof.
  repeat apply conj.
  - intros [|] e s p.
    + set (s' := tighten LONG e s p).
      pose proof (tighten_long_first e s p) as H1.
      pose proof (tighten_long_second e s p) as H2. fold s' in H1, H2.
      unfold tighten at 1.
      destruct (e * 1.01 <? p); destruct (e * 1.02 <? p);
        rewrite ?py_max_absorb; auto.
      rewrite py_max_absorb; auto.
    + set (s' := tighten SHORT e s p).
      pose proof (tighten_short_first e s p) as H1.
      pose proof (tighten_short_second e s p) as H2. fold s' in H1, H2.
      unfold tighten at 1.
      destruct (p <? e * 0.99); destruct (p <? e * 0.98);
        rewrite ?py_min_absorb; auto.
      rewrite py_min_absorb; auto.
  - intros e s p q Hpq.
    pose proof (tighten_long_ge e s q) as H0.
    pose proof (tighten_long_first e s q) as H1.
    pose proof (tighten_long_second e s q) as H2.
    set (t := tighten LONG e s q) in *. unfold tighten, py_max.
    destruct (e * 1.01 <? p) eqn:C1; destruct (e * 1.02 <? p) eqn:C2;
      try (pose proof (H1 (Qltb_le_trans _ _ _ C1 Hpq)));
      try (pose proof (H2 (Qltb_le_trans _ _ _ C2 Hpq)));
      repeat match goal with
             | |- context [if ?c then _ else _] => destruct c
             end; assumption.
  - intros e s p q Hqp.
    pose proof (tighten_short_le e s q) as H0.
    pose proof (tighten_short_first e s q) as H1.
    pose proof (tighten_short_second e s q) as H2.
    set (t := tighten SHORT e s q) in *. unfold tighten, py_min.
    destruct (p <? e * 0.99) eqn:C1; destruct (p <? e * 0.98) eqn:C2;
      try (pose proof (H1 (Qle_ltb_trans _ _ _ Hqp C1)));
      try (pose proof (H2 (Qle_ltb_trans _ _ _ Hqp C2)));
      repeat match goal with
             | |- context [if ?c then _ else _] => destruct c
             end; assumption.
Qed.

Lemma tighten_is_a_ratchet_witness :
  tighten LONG 100 95 101.5 <= tighten LONG 100 95 102.5 /\
  tighten SHORT 100 105 97.5 <= tighten SHORT 100 105 98.5.
Proof.
  destruct tighten_is_a_ratchet as (_ & Hlong & Hshort). split.
  - apply Hlong. discriminate.
  - apply Hshort. discriminate.
Defined.
